(** * DataHorders CDN SDK: the request engine and its error contract

    A shallow embedding of [src/index.ts]: the [DataHordersCDNError] class,
    the [HttpClient] request engine ([request] and its verb wrappers) and
    the ACME polling helper [AcmeCertificatesApi.waitForActive].

    The engine is asynchronous, exception based code over the platform's
    [URL], [fetch], [Response] and [JSON] objects.  Exceptions are modelled
    by a completion monad, the platform by a record of oracles that say
    what each platform call answers, and JavaScript values by an inductive
    type with the language's own conversions ([ToBoolean], [ToString],
    property reads). *)

From stdpp Require Import gmap strings list fin_maps.
From Stdlib Require Import DecimalString DecimalN DecimalZ.

Set Warnings "-register-all".

Local Open Scope string_scope.
Local Open Scope Z_scope.

(** ** JavaScript numbers *)

(** A number as [Number::toString] sees it: not a number, an infinity, a
    zero, or a finite value given by its sign, the decimal digits [s] that
    JavaScript prints for it (the shortest that read back as the same
    number, without leading or trailing zero) and the position [n] of the
    decimal point after the first of them, so that the value is
    [0.s * 10^n]. *)
Module JSNumber.

Inductive number : Type :=
| NaN
| Infinity (negative : bool)
| Zero (negative : bool)
| Finite (negative : bool) (digits : string) (n : Z).

Fixpoint zeros (count : nat) : string :=
  match count with
  | O => EmptyString
  | S m => "0" +:+ zeros m
  end.

(** The decimal numeral of a natural number. *)
Definition decimal (a : Z) : string :=
  NilZero.string_of_uint (N.to_uint (Z.to_N a)).

(** [Number::toString(x, 10)] *)
Definition toString (x : number) : string :=
  match x with
  | NaN => "NaN"
  | Infinity false => "Infinity"
  | Infinity true => "-Infinity"
  | Zero _ => "0"
  | Finite negative digits n =>
      let k := Z.of_nat (String.length digits) in
      (if negative then "-" else EmptyString)
        +:+ (if (-5 <=? n) && (n <=? 21) then
               if k <=? n then digits +:+ zeros (Z.to_nat (n - k))
               else if 0 <? n then
                 String.substring 0 (Z.to_nat n) digits
                   +:+ "." +:+ String.substring (Z.to_nat n) (Z.to_nat (k - n)) digits
               else "0." +:+ zeros (Z.to_nat (- n)) +:+ digits
             else
               let exponent :=
                 (if n - 1 <? 0 then "-" else "+") +:+ decimal (Z.abs (n - 1)) in
               match digits with
               | String c EmptyString => String c EmptyString +:+ "e" +:+ exponent
               | String c rest => String c EmptyString +:+ "." +:+ rest +:+ "e" +:+ exponent
               | EmptyString => "e" +:+ exponent
               end)
  end.

(** What [JSON.stringify] writes for a number. *)
Definition toJSON (x : number) : string :=
  match x with
  | NaN | Infinity _ => "null"
  | _ => toString x
  end.

(** [ToBoolean] *)
Definition truthy (x : number) : bool :=
  match x with
  | NaN | Zero _ => false
  | _ => true
  end.

(** A digit string without its zeros at the end. *)
Fixpoint strip_zeros (s : string) : string :=
  match s with
  | EmptyString => EmptyString
  | String c rest =>
      match strip_zeros rest with
      | EmptyString =>
          if (Ascii.N_of_ascii c =? 48)%N then EmptyString else String c EmptyString
      | r => String c r
      end
  end.

(** The digits of the integer valued double [m * 2^e], [e >= 1],
    [2^52 <= m < 2^53]: the multiple [t * 10^j] with the largest [j]
    that still rounds to it, and among those the one closest to it. *)
Fixpoint shortest (v2 low2 high2 : Z) (inclusive : bool) (j : nat) : Z * nat :=
  let p := 10 ^ Z.of_nat j in
  let tmin := if inclusive then (low2 + 2 * p - 1) / (2 * p) else low2 / (2 * p) + 1 in
  let tmax := if inclusive then high2 / (2 * p) else (high2 + 2 * p - 1) / (2 * p) - 1 in
  if tmin <=? tmax then
    let t0 := v2 / (2 * p) in
    let c1 := Z.max tmin (Z.min tmax t0) in
    let c2 := Z.max tmin (Z.min tmax (t0 + 1)) in
    let d1 := Z.abs (2 * c1 * p - v2) in
    let d2 := Z.abs (2 * c2 * p - v2) in
    ((if d1 <? d2 then c1
      else if d2 <? d1 then c2
      else if Z.even c1 then c1 else c2), j)
  else
    match j with
    | O => (v2 / 2, O)
    | S j' => shortest v2 low2 high2 inclusive j'
    end.

(** The number an integer denotes: itself up to [2^53] in magnitude, and
    beyond that the nearest double (ties to the even significand), an
    infinity from [2^1024 - 2^970] on. *)
Definition of_Z (z : Z) : number :=
  if z =? 0 then Zero false
  else
    let negative := z <? 0 in
    let a := Z.abs z in
    if a <=? 2 ^ 53 then
      Finite negative (strip_zeros (decimal a)) (Z.of_nat (String.length (decimal a)))
    else
      let e := Z.log2 a + 1 - 53 in
      let q := a / 2 ^ e in
      let r := a mod 2 ^ e in
      let half := 2 ^ (e - 1) in
      let q' := if (half <? r) || ((r =? half) && Z.odd q) then q + 1 else q in
      let m := if q' =? 2 ^ 53 then 2 ^ 52 else q' in
      let e' := if q' =? 2 ^ 53 then e + 1 else e in
      if 971 <? e' then Infinity negative
      else
        let v2 := 2 * m * 2 ^ e' in
        let low2 := v2 - (if m =? 2 ^ 52 then 2 ^ (e' - 1) else 2 ^ e') in
        let high2 := v2 + 2 ^ e' in
        let '(t, j) :=
          shortest v2 low2 high2 (Z.even m) (String.length (decimal (m * 2 ^ e'))) in
        Finite negative (strip_zeros (decimal t))
          (Z.of_nat (String.length (decimal t)) + Z.of_nat j).

End JSNumber.

Coercion JSNumber.of_Z : Z >-> JSNumber.number.

(** ** JavaScript values *)

Module JS.

(** The values that travel through the engine: request bodies, parsed JSON
    documents, and whatever a [catch] clause may receive.  Objects and
    arrays are trees, listed as their own properties in enumeration order,
    each key once. *)
Inductive value : Type :=
| VUndefined
| VNull
| VBool (b : bool)
| VNum (x : JSNumber.number)
| VStr (s : string)
| VArr (elems : list value)
| VObj (props : list (string * value)).

(** [ToBoolean]: what [if (v)], [!v] and [v || w] test. *)
Definition truthy (v : value) : bool :=
  match v with
  | VUndefined | VNull => false
  | VBool b => b
  | VNum x => JSNumber.truthy x
  | VStr s => negb (String.eqb s EmptyString)
  | VArr _ | VObj _ => true
  end.

(** Own property lookup in a property list. *)
Fixpoint lookup_prop (k : string) (props : list (string * value)) : option value :=
  match props with
  | [] => None
  | (k', v) :: rest => if String.eqb k k' then Some v else lookup_prop k rest
  end.

(** [v.k] for the property names read in this file ([success], [error],
    [code], [message], [details], [status]); none of them lives on a
    built-in prototype, so only objects can answer with something else than
    [undefined].  Reading a property of [undefined] or [null] is a
    [TypeError], rendered here as [None]. *)
Definition get (v : value) (k : string) : option value :=
  match v with
  | VUndefined | VNull => None
  | VObj props => Some (default VUndefined (lookup_prop k props))
  | _ => Some VUndefined
  end.

(** [typeof v === 'string'] *)
Definition typeof_string (v : value) : bool :=
  match v with VStr _ => true | _ => false end.

(** [ToString].  An array joins its elements with commas, [null] and
    [undefined] elements printing as nothing; a plain object prints as
    [[object Object]] unless an own [toString] property (never callable in
    a data tree) hides the inherited method, in which case the conversion
    is a [TypeError] ([None]). *)
Fixpoint ToString (v : value) : option string :=
  match v with
  | VUndefined => Some "undefined"
  | VNull => Some "null"
  | VBool true => Some "true"
  | VBool false => Some "false"
  | VNum x => Some (JSNumber.toString x)
  | VStr s => Some s
  | VArr elems =>
      let elem (e : value) : option string :=
        match e with
        | VUndefined | VNull => Some EmptyString
        | _ => ToString e
        end in
      (fix join (l : list value) : option string :=
         match l with
         | [] => Some EmptyString
         | [e] => elem e
         | e :: rest =>
             match elem e, join rest with
             | Some s, Some r => Some (s +:+ "," +:+ r)
             | _, _ => None
             end
         end) elems
  | VObj props =>
      match lookup_prop "toString" props with
      | Some _ => None
      | None => Some "[object Object]"
      end
  end.

(** Two lower-case hexadecimal digits of a character code below 32. *)
Definition hex_digit (n : N) : string :=
  String.substring (N.to_nat n) 1 "0123456789abcdef".

(** The double quote character, as a one character string. *)
Definition dquote : string := String (Ascii.ascii_of_N 34) EmptyString.

(** The backslash character, as a one character string. *)
Definition backslash : string := String (Ascii.ascii_of_N 92) EmptyString.

(** The escape [JSON.stringify] writes for one character of a string. *)
Definition quote_char (c : Ascii.ascii) : string :=
  let n := Ascii.N_of_ascii c in
  if (n =? 34)%N then backslash +:+ dquote
  else if (n =? 92)%N then backslash +:+ backslash
  else if (n =? 8)%N then backslash +:+ "b"
  else if (n =? 9)%N then backslash +:+ "t"
  else if (n =? 10)%N then backslash +:+ "n"
  else if (n =? 12)%N then backslash +:+ "f"
  else if (n =? 13)%N then backslash +:+ "r"
  else if (n <? 32)%N then
    backslash +:+ "u00" +:+ hex_digit (n / 16) +:+ hex_digit (n mod 16)
  else String c EmptyString.

Fixpoint quote_chars (s : string) : string :=
  match s with
  | EmptyString => EmptyString
  | String c rest => quote_char c +:+ quote_chars rest
  end.

Definition quote (s : string) : string := dquote +:+ quote_chars s +:+ dquote.

(** [JSON.stringify] on a data tree; [None] is its [undefined] answer.
    An [undefined] array element is written [null], an [undefined]
    property is left out. *)
Fixpoint JSON_stringify (v : value) : option string :=
  match v with
  | VUndefined => None
  | VNull => Some "null"
  | VBool true => Some "true"
  | VBool false => Some "false"
  | VNum x => Some (JSNumber.toJSON x)
  | VStr s => Some (quote s)
  | VArr elems =>
      let items :=
        (fix go (l : list value) : list string :=
           match l with
           | [] => []
           | e :: rest => default "null" (JSON_stringify e) :: go rest
           end) elems in
      Some ("[" +:+ String.concat "," items +:+ "]")
  | VObj props =>
      let members :=
        (fix go (l : list (string * value)) : list string :=
           match l with
           | [] => []
           | (k, e) :: rest =>
               match JSON_stringify e with
               | Some s => (quote k +:+ ":" +:+ s) :: go rest
               | None => go rest
               end
           end) props in
      Some ("{" +:+ String.concat "," members +:+ "}")
  end.

(** [a || b] *)
Definition or_else (a b : value) : value := if truthy a then a else b.

(** An optional property: absent when the value is [undefined]. *)
Definition defined (v : value) : option value :=
  match v with
  | VUndefined => None
  | d => Some d
  end.

End JS.

Import JS.

(** ** Exceptions *)

(** [class DataHordersCDNError extends Error]: the message the [Error]
    constructor stored, the code and status as given, and [details] only
    when the constructor received something else than [undefined]. *)
Record DataHordersCDNError : Type := {
  message : string;
  code : value;
  status : Z;
  details : option value
}.

(** What a [throw] can carry, as the [catch] clause of the engine tells
    them apart: an instance of [DataHordersCDNError], another instance of
    [Error] with its [name] and [message], or a value that is no [Error]. *)
Inductive thrown : Type :=
| ThrownCDN (e : DataHordersCDNError)
| ThrownError (name msg : string)
| ThrownValue (v : value).

(** The outcome of running a piece of code (for asynchronous code, of
    awaiting it): a value, or an exception. *)
Inductive completion (A : Type) : Type :=
| Return (a : A)
| Throw (t : thrown).

Arguments Return {A} a.
Arguments Throw {A} t.

Definition bind {A B : Type} (c : completion A) (k : A -> completion B) : completion B :=
  match c with
  | Return a => k a
  | Throw t => Throw t
  end.

Notation "x <- c ;; k" := (bind c (fun x => k))
  (at level 100, c at next level, right associativity).

(** The [TypeError] of reading property [k] of [undefined] or [null]. *)
Definition read_property (v : value) (k : string) : completion value :=
  match get v k with
  | Some w => Return w
  | None =>
      Throw (ThrownError "TypeError"
               ("Cannot read properties of "
                  +:+ (match v with VNull => "null" | _ => "undefined" end)
                  +:+ " (reading '" +:+ k +:+ "')"))
  end.

(** [new DataHordersCDNError(message, code, status, details)].  The call
    to [super(message)] converts the message to a string, which is where
    the constructor itself can throw. *)
Definition new_DataHordersCDNError
    (msg code : value) (status : Z) (details : value)
  : completion DataHordersCDNError :=
  text <- match msg with
          | VUndefined => Return EmptyString
          | _ => match ToString msg with
                 | Some s => Return s
                 | None =>
                     Throw (ThrownError "TypeError"
                              "Cannot convert object to primitive value")
                 end
          end ;;
  Return {| message := text;
            code := code;
            status := status;
            details := defined details |}.

(** [throw new DataHordersCDNError(...)] *)
Definition throw_new {A : Type}
    (msg code : value) (status : Z) (details : value) : completion A :=
  e <- new_DataHordersCDNError msg code status details ;;
  Throw (ThrownCDN e).

(** ** The platform *)

Module Platform.

(** A parsed [URL] object: the serialization of everything before the
    query, the query itself ([None] when the URL has none), the list its
    [searchParams] object holds, and the fragment. *)
Record URL : Type := {
  url_base : string;
  url_query : option string;
  url_searchParams : list (string * string);
  url_fragment : option string
}.

Definition HEX_digit (n : N) : string :=
  String.substring (N.to_nat n) 1 "0123456789ABCDEF".

(** The bytes the [application/x-www-form-urlencoded] serializer leaves
    alone: ASCII letters and digits, and [*], [-], [.], [_]. *)
Definition urlencoded_safe (n : N) : bool :=
  ((48 <=? n) && (n <=? 57) || (65 <=? n) && (n <=? 90)
   || (97 <=? n) && (n <=? 122)
   || (n =? 42) || (n =? 45) || (n =? 46) || (n =? 95))%N.

Definition urlencoded_byte (c : Ascii.ascii) : string :=
  let n := Ascii.N_of_ascii c in
  if urlencoded_safe n then String c EmptyString
  else if (n =? 32)%N then "+"
  else "%" +:+ HEX_digit (n / 16) +:+ HEX_digit (n mod 16).

(** Strings stand for their UTF-8 bytes. *)
Fixpoint urlencoded (s : string) : string :=
  match s with
  | EmptyString => EmptyString
  | String c rest => urlencoded_byte c +:+ urlencoded rest
  end.

(** The serializer of a [URLSearchParams] list: [name=value] pairs joined
    by [&]. *)
Definition urlencoded_serialize (l : list (string * string)) : string :=
  String.concat "&" (map (fun kv => urlencoded kv.1 +:+ "=" +:+ urlencoded kv.2) l).

(** [url.searchParams.append(name, value)]: the pair goes to the end of
    the list and the URL's query becomes the serialization of the list. *)
Definition searchParams_append (url : URL) (name value : string) : URL :=
  let l := (url_searchParams url ++ [(name, value)])%list in
  {| url_base := url_base url;
     url_query := Some (urlencoded_serialize l);
     url_searchParams := l;
     url_fragment := url_fragment url |}.

(** [url.toString()] *)
Definition URL_toString (url : URL) : string :=
  url_base url
    +:+ (match url_query url with Some q => "?" +:+ q | None => EmptyString end)
    +:+ (match url_fragment url with Some f => "#" +:+ f | None => EmptyString end).

(** A URL that is its own serialization and has neither query nor
    fragment: what [new URL(s)] answers for an absolute URL [s] already in
    normal form, such as [https://api.example/v1/domains]. *)
Definition plain_URL (s : string) : URL :=
  {| url_base := s; url_query := None; url_searchParams := [];
     url_fragment := None |}.

(** A [Response]: its status and what each way of reading the body
    answers. *)
Record Response : Type := {
  resp_status : Z;
  resp_text : completion string;
  resp_json : completion value;
  resp_blob : completion (list Byte.byte)
}.

(** [response.ok]: the status is in the range 200-299. *)
Definition ok (r : Response) : bool :=
  (200 <=? resp_status r) && (resp_status r <=? 299).

(** The arguments of one [fetch] call; the abort signal is not a datum of
    the call, its firing shows as the call's answer. *)
Record FetchCall : Type := {
  fc_url : string;
  fc_method : string;
  fc_headers : gmap string string;
  fc_body : option string
}.

(** What the platform answers: [new URL(s)] ([None] is its [TypeError] for
    a string that is no absolute URL) and [await fetch(url, init)]. *)
Record platform : Type := {
  new_URL : string -> option URL;
  fetch : FetchCall -> completion Response
}.

End Platform.

Import Platform.

(** ** The request engine: [class HttpClient] *)

Module HttpClient.

Definition DEFAULT_BASE_URL : string :=
  "https://dashboard.datahorders.org/api/user/v1".

Definition DEFAULT_TIMEOUT : Z := 30000.

(** Modelled from the spec: the configuration object
    [{apiKey, baseUrl?, timeout?, headers?}], whose declaration
    ([DataHordersCDNConfig] in [types.ts]) is not part of the sources. *)
Record DataHordersCDNConfig : Type := {
  config_apiKey : string;
  config_baseUrl : option string;
  config_timeout : option Z;
  config_headers : option (gmap string string)
}.

(** The private fields of an [HttpClient]. *)
Record HttpClient : Type := {
  baseUrl : string;
  apiKey : string;
  timeout : Z;
  customHeaders : gmap string string
}.

(** [s.replace(/\/$/, '')]: one slash at the very end is dropped. *)
Fixpoint strip_trailing_slash (s : string) : string :=
  match s with
  | EmptyString => EmptyString
  | String c EmptyString => if (Ascii.N_of_ascii c =? 47)%N then EmptyString else s
  | String c rest => String c (strip_trailing_slash rest)
  end.

Definition constructor (config : DataHordersCDNConfig) : HttpClient :=
  {| baseUrl := strip_trailing_slash (default DEFAULT_BASE_URL (config_baseUrl config));
     apiKey := config_apiKey config;
     timeout := default DEFAULT_TIMEOUT (config_timeout config);
     customHeaders := default ∅ (config_headers config) |}.

(** The values of a query record: [string | number | boolean | undefined]. *)
Inductive query_value : Type :=
| QString (s : string)
| QNumber (x : JSNumber.number)
| QBoolean (b : bool)
| QUndefined.

(** [String(value)] on a query value. *)
Definition String_ (v : query_value) : string :=
  match v with
  | QString s => s
  | QNumber x => JSNumber.toString x
  | QBoolean true => "true"
  | QBoolean false => "false"
  | QUndefined => "undefined"
  end.

Inductive response_type : Type := json | blob.

(** The [options] argument of [request].  An absent [body] is
    [VUndefined]; [params] lists the record as [Object.entries] does. *)
Record RequestOptions : Type := {
  body : value;
  params : option (list (string * query_value));
  responseType : option response_type
}.

(** What a call resolves to: the parsed JSON document, or a [Blob]. *)
Inductive payload : Type :=
| Json (data : value)
| Blob (bytes : list Byte.byte).

(** Lines 146-153: the loop over [Object.entries(options.params)]. *)
Definition add_query_parameters
    (url : URL) (params : option (list (string * query_value))) : URL :=
  match params with
  | None => url
  | Some entries =>
      foldl (fun u kv =>
               match kv.2 with
               | QUndefined => u
               | v => searchParams_append u kv.1 (String_ v)
               end) url entries
  end.

(** Lines 155-162: the object literal spreads [customHeaders] over the
    credential entry, then the content type is assigned for a truthy
    body. *)
Definition request_headers (this : HttpClient) (options : RequestOptions)
  : gmap string string :=
  let headers := customHeaders this ∪ {[ "X-API-Key" := apiKey this ]} in
  if truthy (body options)
  then <[ "Content-Type" := "application/json" ]> headers
  else headers.

(** Lines 168-178: the [fetch] call the engine issues.  The body is
    serialized inside the [try] block; on a data tree [JSON.stringify]
    cannot throw, so the place does not show. *)
Definition request_call
    (this : HttpClient) (method : string) (url : URL) (options : RequestOptions)
  : FetchCall :=
  {| fc_url := URL_toString url;
     fc_method := method;
     fc_headers := request_headers this options;
     fc_body := if truthy (body options)
                then JSON_stringify (body options)
                else None |}.

(** Lines 197-209: the envelope is read with unchecked property reads. *)
Definition request_envelope (response : Response) (data : value)
  : completion (completion payload) :=
  failed <- (if negb (ok response) then Return true
             else success <- read_property data "success" ;;
                  Return (negb (truthy success))) ;;
  if failed : bool then
    err <- read_property data "error" ;;
    let error :=
      if typeof_string err
      then VObj [("code", VStr "API_ERROR"); ("message", err)]
      else err in
    msg <- read_property error "message" ;;
    cod <- read_property error "code" ;;
    det <- read_property error "details" ;;
    throw_new msg cod (resp_status response) det
  else Return (Return (Json data)).

(** Lines 167-211, the [try] block.  Its outer completion is what the
    block itself does; an inner completion is a promise the block returns
    without awaiting it, which the function then resolves to. *)
Definition request_try
    (pf : platform) (call : FetchCall) (options : RequestOptions)
  : completion (completion payload) :=
  response <- fetch pf call ;;
  match responseType options with
  | Some blob =>
      if negb (ok response) then
        errorText <- resp_text response ;;
        throw_new (or_else (VStr errorText) (VStr "Request failed"))
                  (VStr "REQUEST_FAILED") (resp_status response) VUndefined
      else Return (bytes <- resp_blob response ;; Return (Blob bytes))
  | _ =>
      data <- resp_json response ;;
      request_envelope response data
  end.

(** Lines 212-239, the [catch] clause. *)
Definition request_catch {A : Type} (error : thrown) : completion A :=
  match error with
  | ThrownCDN e => Throw (ThrownCDN e)
  | ThrownError name msg =>
      if String.eqb name "AbortError"
      then throw_new (VStr "Request timeout") (VStr "TIMEOUT") 0 VUndefined
      else throw_new (VStr msg) (VStr "NETWORK_ERROR") 0 VUndefined
  | ThrownValue _ =>
      throw_new (VStr "Unknown error occurred") (VStr "UNKNOWN_ERROR") 0 VUndefined
  end.

(** [private async request<T>(method, path, options)].  The URL is built
    before the [try] statement is entered. *)
Definition request
    (pf : platform) (this : HttpClient)
    (method path : string) (options : RequestOptions) : completion payload :=
  match new_URL pf (baseUrl this +:+ path) with
  | None => Throw (ThrownError "TypeError" "Invalid URL")
  | Some url0 =>
      let url := add_query_parameters url0 (params options) in
      match request_try pf (request_call this method url options) options with
      | Return promise => promise
      | Throw error => request_catch error
      end
  end.

Definition get (pf : platform) (this : HttpClient) (path : string)
    (params : option (list (string * query_value))) : completion payload :=
  request pf this "GET" path
    {| body := VUndefined; params := params; responseType := None |}.

Definition post (pf : platform) (this : HttpClient) (path : string)
    (body : value) (params : option (list (string * query_value)))
  : completion payload :=
  request pf this "POST" path
    {| body := body; params := params; responseType := None |}.

Definition put (pf : platform) (this : HttpClient) (path : string)
    (body : value) (params : option (list (string * query_value)))
  : completion payload :=
  request pf this "PUT" path
    {| body := body; params := params; responseType := None |}.

Definition patch (pf : platform) (this : HttpClient) (path : string)
    (body : value) (params : option (list (string * query_value)))
  : completion payload :=
  request pf this "PATCH" path
    {| body := body; params := params; responseType := None |}.

Definition delete (pf : platform) (this : HttpClient) (path : string)
    (params : option (list (string * query_value))) : completion payload :=
  request pf this "DELETE" path
    {| body := VUndefined; params := params; responseType := None |}.

Definition download (pf : platform) (this : HttpClient) (path : string)
  : completion payload :=
  request pf this "GET" path
    {| body := VUndefined; params := None; responseType := Some blob |}.

End HttpClient.

Import HttpClient.

(** ** ACME certificates: [class AcmeCertificatesApi] *)

Module AcmeCertificatesApi.

(** [async getStatus(certificateId)]: the envelope's [data] property. *)
Definition getStatus (pf : platform) (client : HttpClient) (certificateId : string)
  : completion value :=
  response <- get pf client "/certificates/acme"
                (Some [("certificateId", QString certificateId)]) ;;
  match response with
  | Json data => read_property data "data"
  | Blob _ => Return VUndefined
  end.

(** [{ pollInterval?: number; timeout?: number }] *)
Record WaitOptions : Type := {
  wait_pollInterval : option Z;
  wait_timeout : option Z
}.

(** What the loop asks of the outside world, in order: a status check, or
    a timer set for so many milliseconds and awaited. *)
Inductive event : Type :=
| StatusCheck (certificateId : string)
| Delay (ms : Z).

(** One turn of the [while] loop as the world presents it: the reading of
    [Date.now()] in the loop test, and the network as the status check of
    that turn finds it. *)
Record round : Type := {
  now : Z;
  network : platform
}.

(** [v === s] for a string literal [s] *)
Definition strict_eq_string (v : value) (s : string) : bool :=
  match v with
  | VStr t => String.eqb t s
  | _ => false
  end.

(** Lines 585-607: the loop and the statement after it.  The answer pairs
    the events with the outcome; the outcome is [None] when the list of
    rounds ends while the loop is still running. *)
Fixpoint poll (client : HttpClient) (certificateId : string)
    (pollInterval timeout startTime : Z) (rounds : list round)
  : list event * option (completion value) :=
  match rounds with
  | [] => ([], None)
  | r :: rest =>
      if now r - startTime <? timeout then
        let checked := [StatusCheck certificateId] in
        match getStatus (network r) client certificateId with
        | Throw t => (checked, Some (Throw t))
        | Return status =>
            match read_property status "status" with
            | Throw t => (checked, Some (Throw t))
            | Return s =>
                if strict_eq_string s "active" then
                  (checked, Some (Return status))
                else if strict_eq_string s "failed" || strict_eq_string s "error" then
                  (checked,
                   Some (msg <- read_property status "message" ;;
                         throw_new
                           (or_else msg (VStr "Certificate issuance failed"))
                           (VStr "CERTIFICATE_FAILED") 0 VUndefined))
                else
                  let '(events, outcome) :=
                    poll client certificateId pollInterval timeout startTime rest in
                  (checked ++ Delay pollInterval :: events, outcome)%list
            end
        end
      else
        ([], Some (throw_new
                     (VStr "Timeout waiting for certificate to become active")
                     (VStr "TIMEOUT") 0 VUndefined))
  end.

(** [options?.pollInterval ?? 10000] *)
Definition pollInterval_of (options : option WaitOptions) : Z :=
  default 10000 (options ≫= wait_pollInterval).

(** [options?.timeout ?? 300000] *)
Definition timeout_of (options : option WaitOptions) : Z :=
  default 300000 (options ≫= wait_timeout).

(** [async waitForActive(certificateId, options?)]; [startTime] is the
    first reading of [Date.now()]. *)
Definition waitForActive (client : HttpClient) (certificateId : string)
    (options : option WaitOptions) (startTime : Z) (rounds : list round)
  : list event * option (completion value) :=
  poll client certificateId (pollInterval_of options) (timeout_of options)
    startTime rounds.

End AcmeCertificatesApi.

Import AcmeCertificatesApi.

(** ** The resource namespaces *)

(** [s.length] for the values a response can hold: the number of elements
    of an array, the number of UTF-16 code units of a string (read off
    its UTF-8 bytes: one per leading byte, two for the leading byte of a
    four byte sequence), an own [length] property of an object, and
    [undefined] otherwise.  On [undefined] and [null] the read is a
    [TypeError]. *)
Module Reading.

Definition utf16_units (c : Ascii.ascii) : Z :=
  let n := Ascii.N_of_ascii c in
  if (n <? 128)%N then 1
  else if (n <? 192)%N then 0
  else if (n <? 240)%N then 1
  else 2.

Fixpoint string_length (s : string) : Z :=
  match s with
  | EmptyString => 0
  | String c rest => utf16_units c + string_length rest
  end.

Definition length_of (v : value) : completion value :=
  match v with
  | VUndefined =>
      Throw (ThrownError "TypeError"
               "Cannot read properties of undefined (reading 'length')")
  | VNull =>
      Throw (ThrownError "TypeError"
               "Cannot read properties of null (reading 'length')")
  | VArr elems => Return (VNum (Z.of_nat (length elems)))
  | VStr s => Return (VNum (string_length s))
  | VObj props => Return (default VUndefined (lookup_prop "length" props))
  | _ => Return VUndefined
  end.

(** [a ?? b], with [b] evaluated only when [a] is [undefined] or [null]. *)
Definition nullish (v : value) : bool :=
  match v with
  | VUndefined | VNull => true
  | _ => false
  end.

(** [response.k] on what a call of the engine resolved to; a [Blob] has
    none of the properties read here. *)
Definition response_property (response : payload) (k : string) : completion value :=
  match response with
  | Json data => read_property data k
  | Blob _ => Return VUndefined
  end.

(** [x?.toString()] on a query value: [undefined] stays [undefined], and
    for strings, numbers and booleans [toString()] is [String]. *)
Definition optional_toString (v : query_value) : query_value :=
  match v with
  | QUndefined => QUndefined
  | _ => QString (String_ v)
  end.

(** The expression every paginated [list] method ends with:
    [{ data: response.data, meta: response.meta ?? { total:
    response.data.length, page: 1, perPage: response.data.length,
    totalPages: 1 } }]. *)
Definition data_and_meta (response : payload) : completion value :=
  data <- response_property response "data" ;;
  meta <- response_property response "meta" ;;
  meta' <- (if nullish meta then
              data1 <- response_property response "data" ;;
              total <- length_of data1 ;;
              data2 <- response_property response "data" ;;
              perPage <- length_of data2 ;;
              Return (VObj [("total", total); ("page", VNum 1);
                            ("perPage", perPage); ("totalPages", VNum 1)])
            else Return meta) ;;
  Return (VObj [("data", data); ("meta", meta')]).

End Reading.

Import Reading.

(** [class DomainsApi] *)
Module DomainsApi.

(** Modelled from the spec: the declaration of [DomainListParams] (in
    [types.ts]) is not part of the sources, and the spec only says that a
    namespace hands its typed filters to the engine as query parameters.
    The record has the three fields [list] reads, each of the type the
    query record of [get] admits. *)
Record DomainListParams : Type := {
  page : query_value;
  perPage : query_value;
  verified : query_value
}.

(** [params?.field] *)
Definition optional_field {P : Type} (params : option P) (field : P -> query_value)
  : query_value :=
  match params with
  | Some p => field p
  | None => QUndefined
  end.

Definition get (pf : platform) (client : HttpClient) (id : string)
  : completion value :=
  response <- HttpClient.get pf client "/domains" (Some [("id", QString id)]) ;;
  response_property response "data".

Definition create (pf : platform) (client : HttpClient) (params : value)
  : completion value :=
  response <- HttpClient.post pf client "/domains" params None ;;
  response_property response "data".

Definition delete (pf : platform) (client : HttpClient) (id : string)
  : completion value :=
  response <- HttpClient.delete pf client "/domains" (Some [("id", QString id)]) ;;
  response_property response "data".

Definition verify (pf : platform) (client : HttpClient) (params : value)
  : completion value :=
  response <- HttpClient.post pf client "/domains/verify" params None ;;
  response_property response "data".

(** The query record of [list]. *)
Definition list_query (params : option DomainListParams)
  : Datatypes.list (string * query_value) :=
  [("page", optional_field params page);
   ("perPage", optional_field params perPage);
   ("verified", optional_toString (optional_field params verified))].

Definition list (pf : platform) (client : HttpClient)
    (params : option DomainListParams) : completion value :=
  response <- HttpClient.get pf client "/domains" (Some (list_query params)) ;;
  data_and_meta response.

End DomainsApi.

(** [class ZonesApi], the methods addressed by identifier. *)
Module ZonesApi.

Definition get (pf : platform) (client : HttpClient) (id : string)
  : completion value :=
  response <- HttpClient.get pf client ("/zones/" +:+ id) None ;;
  response_property response "data".

Definition update (pf : platform) (client : HttpClient) (id : string)
    (params : value) : completion value :=
  response <- HttpClient.put pf client ("/zones/" +:+ id) params None ;;
  response_property response "data".

Definition updateByFqdn (pf : platform) (client : HttpClient) (fqdn : string)
    (params : value) : completion value :=
  response <- HttpClient.patch pf client "/zones" params
                (Some [("fqdn", QString fqdn)]) ;;
  response_property response "data".

Definition delete (pf : platform) (client : HttpClient) (id : string)
  : completion value :=
  response <- HttpClient.delete pf client ("/zones/" +:+ id) None ;;
  response_property response "data".

End ZonesApi.

(** [class UpstreamServersApi]: these methods hand on what the engine
    resolved to, without reading [data]. *)
Module UpstreamServersApi.

Definition list (pf : platform) (client : HttpClient) (zoneId : string)
  : completion payload :=
  HttpClient.get pf client ("/zones/" +:+ zoneId +:+ "/upstream/servers") None.

Definition delete (pf : platform) (client : HttpClient) (zoneId serverId : string)
  : completion payload :=
  HttpClient.delete pf client
    ("/zones/" +:+ zoneId +:+ "/upstream/servers/" +:+ serverId) None.

End UpstreamServersApi.

(** [class CertificatesApi], the download. *)
Module CertificatesApi.

Definition download (pf : platform) (client : HttpClient) (id : string)
  : completion payload :=
  HttpClient.download pf client ("/certificates/" +:+ id +:+ "/download").

End CertificatesApi.

(** [class DataHordersCDN]: the facade's constructor, which every
    namespace shares the client of. *)
Module DataHordersCDN.

(** [string | DataHordersCDNConfig] *)
Inductive apiKeyOrConfig : Type :=
| ApiKey (key : string)
| Config (config : DataHordersCDNConfig).

Definition constructor (arg : apiKeyOrConfig) : HttpClient :=
  let config :=
    match arg with
    | ApiKey key =>
        {| config_apiKey := key; config_baseUrl := None;
           config_timeout := None; config_headers := None |}
    | Config config => config
    end in
  HttpClient.constructor config.

End DataHordersCDN.

(** * What the properties are stated with *)

(** The engine got response [r] for this call: the URL parsed and [fetch]
    resolved. *)
Definition answers (pf : platform) (this : HttpClient)
    (method path : string) (options : RequestOptions) (r : Response) : Prop :=
  ∃ url0,
    new_URL pf (baseUrl this +:+ path) = Some url0
    ∧ fetch pf (request_call this method
                  (add_query_parameters url0 (params options)) options)
      = Return r.

(** The query entries the specification keeps: those whose value is not
    [undefined], each value as a string. *)
Definition defined_entries (entries : list (string * query_value))
  : list (string * string) :=
  omap (fun kv => match kv.2 with
                  | QUndefined => None
                  | v => Some (kv.1, String_ v)
                  end) entries.

(** The URL as the specification words it: base URL, path, then the kept
    entries as a query, if there are any. *)
Definition spec_url (base path : string)
    (params : option (list (string * query_value))) : string :=
  base +:+ path
    +:+ match defined_entries (default [] params) with
        | [] => EmptyString
        | l => "?" +:+ urlencoded_serialize l
        end.

(** The value a setting has: the one given in the options, or the
    fallback when the options give none. *)
Definition configured (given : option Z) (fallback value : Z) : Prop :=
  given = Some value ∨ (given = None ∧ value = fallback).

(** A round that finds the deadline, so many milliseconds after the
    start, not yet reached and the certificate with status [s]. *)
Definition reports_before (client : HttpClient) (certificateId : string)
    (startTime deadline : Z) (s : string) (status : value) (r : round) : Prop :=
  now r - startTime < deadline
  ∧ getStatus (network r) client certificateId = Return status
  ∧ JS.get status "status" = Some (VStr s).

Definition pending_before (client : HttpClient) (certificateId : string)
    (startTime deadline : Z) (r : round) : Prop :=
  ∃ status, reports_before client certificateId startTime deadline "pending" status r.

(** The events of [n] rounds that found the certificate pending, with
    delays of [interval] milliseconds. *)
Fixpoint checks_and_delays (certificateId : string) (interval : Z) (n : nat)
  : list event :=
  match n with
  | O => []
  | S m =>
      StatusCheck certificateId :: Delay interval
        :: checks_and_delays certificateId interval m
  end.

Section rounds.

Variable certificateId : string.
Variable options : option WaitOptions.

(** The events of [n] rounds that found the certificate pending. *)
Fixpoint pending_events (n : nat) : list event :=
  match n with
  | O => []
  | S m =>
      StatusCheck certificateId :: Delay (pollInterval_of options)
        :: pending_events m
  end.

End rounds.

(** ** Concrete scenarios *)

Definition example_client : HttpClient :=
  constructor {| config_apiKey := "secret";
                 config_baseUrl := Some "https://api.example/v1/";
                 config_timeout := None;
                 config_headers := None |}.

(** A platform on which every URL is plain and every call gets [r]. *)
Definition responding (r : Response) : platform :=
  {| new_URL := fun s => Some (plain_URL s);
     fetch := fun _ => Return r |}.

(** A response whose body arrived whole: [text] is the body as text,
    [parsed] what decoding it as JSON gives. *)
Definition body_response (status : Z) (text : string) (parsed : completion value)
  : Response :=
  {| resp_status := status;
     resp_text := Return text;
     resp_json := parsed;
     resp_blob := Return (String.list_byte_of_string text) |}.

(** A response whose body is the JSON text of [data]. *)
Definition json_response (status : Z) (data : value) : Response :=
  body_response status (default EmptyString (JSON_stringify data)) (Return data).

Definition json_options (b : value) : RequestOptions :=
  {| body := b; params := None; responseType := None |}.

Definition domain_exists : Response :=
  json_response 409
    (VObj [("success", VBool false);
           ("error", VObj [("code", VStr "DOMAIN_EXISTS");
                           ("message", VStr "Domain already registered")])]).




Definition server_error_success_body : Response :=
  json_response 500 (VObj [("success", VBool true); ("data", VNum 1)]).

Definition domain_list : Response :=
  json_response 200 (VObj [("success", VBool true); ("data", VArr [])]).

(** A download answered with status 200 whose body stream breaks while
    the blob is read. *)
Definition interrupted_download : Response :=
  {| resp_status := 200;
     resp_text := Throw (ThrownError "TypeError" "terminated");
     resp_json := Throw (ThrownError "TypeError" "terminated");
     resp_blob := Throw (ThrownError "TypeError" "terminated") |}.

(** A status 200 response that carries a web page instead of JSON. *)
Definition page_instead_of_json : Response :=
  body_response 200 "<html></html>"
    (Throw (ThrownError "SyntaxError" "Unexpected token < in JSON at position 0")).

Definition download_options : RequestOptions :=
  {| body := VUndefined; params := None; responseType := Some blob |}.

(** A download refused with status 404 and a text body. *)
Definition missing_certificate : Response :=
  body_response 404 "Certificate not found"
    (Throw (ThrownError "SyntaxError" "Unexpected token C in JSON at position 0")).

(** A download refused with status 502 and an empty body. *)
Definition bad_gateway : Response :=
  body_response 502 EmptyString
    (Throw (ThrownError "SyntaxError" "Unexpected end of JSON input")).

(** A download answered with status 200 and four bytes. *)
Definition archive : Response :=
  body_response 200
    (String.string_of_list_byte [Byte.x50; Byte.x4b; Byte.x03; Byte.x04])
    (Throw (ThrownError "SyntaxError" "Unexpected token P in JSON at position 0")).

(** What [new URL] makes of [https://api.example/v1/domains#list]. *)
Definition domains_with_fragment : URL :=
  {| url_base := "https://api.example/v1/domains";
     url_query := None;
     url_searchParams := [];
     url_fragment := Some "list" |}.

(** A platform that parses that one URL, and takes every other string
    for a plain URL. *)
Definition listing_with_fragment : platform :=
  {| new_URL := fun s =>
       if String.eqb s "https://api.example/v1/domains#list"
       then Some domains_with_fragment
       else Some (plain_URL s);
     fetch := fun _ => Return domain_list |}.

Definition verified_domains : RequestOptions :=
  {| body := VUndefined;
     params := Some [("page", QUndefined); ("perPage", QUndefined);
                     ("verified", QString "true")];
     responseType := None |}.

(** A client whose additional headers name the credential header and the
    content type themselves. *)
Definition overriding_client : HttpClient :=
  constructor
    {| config_apiKey := "secret";
       config_baseUrl := Some "https://api.example/v1";
       config_timeout := None;
       config_headers :=
         Some (<[ "X-API-Key" := "other" ]>
                 (<[ "Content-Type" := "text/plain" ]> ∅)) |}.

(** A status check answered with the given certificate status. *)
Definition certificate_status (s : string) : value :=
  VObj [("certificateId", VStr "cert_1"); ("status", VStr s)].

Definition reporting (t : Z) (s : string) : round :=
  {| now := t;
     network := responding
                  (json_response 200
                     (VObj [("success", VBool true);
                            ("data", certificate_status s)])) |}.

Definition every_second : option WaitOptions :=
  Some {| wait_pollInterval := Some 1000; wait_timeout := Some 5000 |}.

(** An outcome of a platform call: the platform throws its own errors,
    never a [DataHordersCDNError]. *)
Definition platform_outcome {A : Type} (c : completion A) : Prop :=
  ∀ e, c ≠ Throw (ThrownCDN e).

(** A platform on which every URL is plain and every call is refused
    with [t]. *)
Definition rejecting (t : thrown) : platform :=
  {| new_URL := fun s => Some (plain_URL s);
     fetch := fun _ => Throw t |}.

(** A platform on which no string is a URL. *)
Definition no_URL : platform :=
  {| new_URL := fun _ => None;
     fetch := fun _ => Throw (ThrownValue VUndefined) |}.

(** A gateway's own error page in JSON, with status 503. *)
Definition gateway_error : Response :=
  json_response 503 (VObj [("message", VStr "Service Unavailable")]).

(** A namespace method that hands on the engine's call: it throws only
    what the call throws, and resolves only to the [data] property of the
    document the call resolved to. *)
Definition unwraps (method_ : completion value) (call : completion payload) : Prop :=
  (∀ t, method_ = Throw t → call = Throw t)
  ∧ (∀ v, method_ = Return v →
       ∃ env, call = Return (Json env) ∧ JS.get env "data" = Some v).

(** The query entries of [DomainsApi.list] in words: [page], [perPage]
    and [verified], in this order, each only when given, [verified] as
    text. *)
Definition domain_list_entries (params : option DomainsApi.DomainListParams)
  : list (string * string) :=
  match params with
  | None => []
  | Some p =>
      (match DomainsApi.page p with
       | QUndefined => []
       | v => [("page", String_ v)]
       end
       ++ match DomainsApi.perPage p with
          | QUndefined => []
          | v => [("perPage", String_ v)]
          end
       ++ match DomainsApi.verified p with
          | QUndefined => []
          | v => [("verified", String_ v)]
          end)%list
  end.

Definition two_domains : value :=
  VArr [VObj [("id", VStr "dom_1")]; VObj [("id", VStr "dom_2")]].

(** A page of a longer list, with the server's own pagination. *)
Definition paged_domains : Response :=
  json_response 200
    (VObj [("success", VBool true); ("data", two_domains);
           ("meta", VObj [("page", VNum 2); ("perPage", VNum 2);
                          ("total", VNum 5); ("totalPages", VNum 3)])]).

(** A list without pagination. *)
Definition unpaged_domains : Response :=
  json_response 200 (VObj [("success", VBool true); ("data", two_domains)]).

(** A success envelope with nothing in it. *)
Definition bare_success : Response :=
  json_response 200 (VObj [("success", VBool true)]).

(** A status 200 response whose body is a bare array. *)
Definition bare_array : Response :=
  json_response 200 (VArr [VObj [("id", VStr "srv_1")]]).

Definition unverified_only : option DomainsApi.DomainListParams :=
  Some {| DomainsApi.page := QUndefined;
          DomainsApi.perPage := QNumber 50;
          DomainsApi.verified := QBoolean false |}.

(** A certificate status that ends the polling neither way: anything but
    the strings [active], [failed] and [error]. *)
Definition waiting_status (s : value) : bool :=
  negb (strict_eq_string s "active")
  && negb (strict_eq_string s "failed")
  && negb (strict_eq_string s "error").

(** A round that finds the deadline not yet reached and the certificate
    with a status that ends nothing. *)
Definition waiting_round (client : HttpClient) (certificateId : string)
    (options : option WaitOptions) (startTime : Z) (r : round) : Prop :=
  now r - startTime < timeout_of options
  ∧ ∃ status s,
      getStatus (network r) client certificateId = Return status
      ∧ JS.get status "status" = Some s
      ∧ waiting_status s = true.

(** A round whose status check has the given outcome. *)
Definition answering (t : Z) (outcome : Response) : round :=
  {| now := t; network := responding outcome |}.


(** An unauthorized status check. *)
Definition unauthorized : Response :=
  json_response 401
    (VObj [("success", VBool false);
           ("error", VObj [("code", VStr "AUTH_REQUIRED");
                           ("message", VStr "API key required")])]).

Definition slashed_config : DataHordersCDNConfig :=
  {| config_apiKey := "secret";
     config_baseUrl := Some "https://api.example/v1//";
     config_timeout := Some 5000;
     config_headers := None |}.

(** * Properties of the engine *)

(** ** Basic facts about throwing and catching *)

Lemma throw_new_string {A : Type} (m : string) (c : value) (s : Z) (d : value) :
  @throw_new A (VStr m) c s d
  = Throw (ThrownCDN {| message := m; code := c; status := s; details := defined d |}).
Proof. reflexivity. Qed.

Lemma throw_new_throws {A : Type} (m c : value) (s : Z) (d : value) :
  ∃ t, @throw_new A m c s d = Throw t.
Proof.
  unfold throw_new, new_DataHordersCDNError.
  destruct m; try (simpl; eauto; fail);
    match goal with
    | |- context [ToString ?v] => destruct (ToString v); simpl; eauto
    end.
Qed.

(** Whatever the [catch] clause receives, what it throws is a
    [DataHordersCDNError]. *)
Lemma request_catch_uniform {A : Type} (t : thrown) :
  ∃ e, @request_catch A t = Throw (ThrownCDN e).
Proof.
  destruct t as [e | name msg | v]; simpl; eauto.
  destruct (String.eqb name "AbortError"); rewrite throw_new_string; eauto.
Qed.

(** The three reclassifications of the [catch] clause. *)
Lemma request_catch_classifies {A : Type} :
  (∀ msg, @request_catch A (ThrownError "AbortError" msg)
          = Throw (ThrownCDN {| message := "Request timeout"; code := VStr "TIMEOUT";
                                status := 0; details := None |}))
  ∧ (∀ name msg, name ≠ "AbortError" →
       @request_catch A (ThrownError name msg)
       = Throw (ThrownCDN {| message := msg; code := VStr "NETWORK_ERROR";
                             status := 0; details := None |}))
  ∧ (∀ v, @request_catch A (ThrownValue v)
          = Throw (ThrownCDN {| message := "Unknown error occurred";
                                code := VStr "UNKNOWN_ERROR";
                                status := 0; details := None |})).
Proof.
  split; [| split]; intros; simpl; try reflexivity.
  destruct (String.eqb_spec name "AbortError"); [done | reflexivity].
Qed.

(** With a response in hand, [request] is the [try] block's branch on the
    response followed by the [catch] clause. *)
Lemma request_answered pf this method path options r :
  answers pf this method path options r →
  request pf this method path options
  = match
      match responseType options with
      | Some blob =>
          if negb (ok r) then
            errorText <- resp_text r ;;
            throw_new (or_else (VStr errorText) (VStr "Request failed"))
              (VStr "REQUEST_FAILED") (resp_status r) VUndefined
          else Return (bytes <- resp_blob r ;; Return (Blob bytes))
      | _ => data <- resp_json r ;; request_envelope r data
      end
    with
    | Return promise => promise
    | Throw error => request_catch error
    end.
Proof.
  intros (url0 & Hurl & Hfetch).
  unfold request, request_try. rewrite Hurl, Hfetch. reflexivity.
Qed.

(** On the error branch the envelope code throws, whatever the document. *)
Lemma request_envelope_failed r data :
  ok r = false ∨ (∃ s, JS.get data "success" = Some s ∧ truthy s = false) →
  ∃ t, request_envelope r data = Throw t.
Proof.
  intros Hfail. unfold request_envelope.
  assert (Hcond :
    (if negb (ok r) then Return true
     else success <- read_property data "success" ;; Return (negb (truthy success)))
    = Return true).
  { destruct Hfail as [-> | (s & Hs & Hf)]; [reflexivity |].
    destruct (negb (ok r)); [reflexivity |].
    unfold read_property. rewrite Hs. simpl. by rewrite Hf. }
  rewrite Hcond. simpl.
  unfold read_property at 1.
  destruct (JS.get data "error") as [err |]; simpl; [| eauto].
  set (error := if typeof_string err then _ else err).
  unfold read_property.
  destruct (JS.get error "message") as [m |]; simpl; [| eauto].
  destruct (JS.get error "code") as [c |]; simpl; [| eauto].
  destruct (JS.get error "details") as [d |]; simpl; [| eauto].
  apply throw_new_throws.
Qed.

(** On the error branch the envelope code is the reading of [error]
    followed by the construction of the exception. *)
Lemma request_envelope_error_branch r data :
  ok r = false ∨ (∃ s, JS.get data "success" = Some s ∧ truthy s = false) →
  request_envelope r data
  = (err <- read_property data "error" ;;
     let error :=
       if typeof_string err
       then VObj [("code", VStr "API_ERROR"); ("message", err)]
       else err in
     msg <- read_property error "message" ;;
     cod <- read_property error "code" ;;
     det <- read_property error "details" ;;
     throw_new msg cod (resp_status r) det).
Proof.
  intros Hfail. unfold request_envelope.
  assert (Hcond :
    (if negb (ok r) then Return true
     else success <- read_property data "success" ;; Return (negb (truthy success)))
    = Return true).
  { destruct Hfail as [-> | (s & Hs & Hf)]; [reflexivity |].
    destruct (negb (ok r)); [reflexivity |].
    unfold read_property. rewrite Hs. simpl. by rewrite Hf. }
  rewrite Hcond. reflexivity.
Qed.

(** On the JSON path with a document in hand, [request] is the envelope
    code followed by the [catch] clause. *)
Lemma request_json_path pf this method path options r data :
  answers pf this method path options r →
  responseType options ≠ Some blob →
  resp_json r = Return data →
  request pf this method path options
  = match request_envelope r data with
    | Return promise => promise
    | Throw error => request_catch error
    end.
Proof.
  intros Hans Hjson Hdata. rewrite (request_answered _ _ _ _ _ _ Hans).
  destruct (responseType options) as [[] |]; try done; by rewrite Hdata.
Qed.

(** ** The JSON path *)

(** An object without an [error] property on the error branch: reading
    [message] of [undefined] is a [TypeError], which the [catch] clause
    reports as [NETWORK_ERROR] with status 0. *)
Lemma request_error_field_absent pf this method path options r props :
  answers pf this method path options r →
  responseType options ≠ Some blob →
  resp_json r = Return (VObj props) →
  ok r = false →
  lookup_prop "error" props = None →
  ∃ msg,
    request pf this method path options
    = Throw (ThrownCDN {| message := msg; code := VStr "NETWORK_ERROR";
                          status := 0; details := None |}).
Proof.
  intros Hans Hjson Hdata Hok Herr.
  rewrite (request_json_path _ _ _ _ _ _ _ Hans Hjson Hdata).
  rewrite (request_envelope_error_branch _ _ (or_introl Hok)).
  unfold read_property at 1. simpl. rewrite Herr. simpl. eauto.
Qed.




(** C2.  On the JSON path a response with a status outside 200-299 makes
    the engine throw a [DataHordersCDNError], whatever the body holds,
    even an envelope with [success: true]; a response with a status in
    200-299 and an envelope with [success: true] makes it return the
    parsed envelope. *)
Theorem request_status_decides pf this method path options r :
  answers pf this method path options r →
  responseType options ≠ Some blob →
  (ok r = false →
     ∃ e, request pf this method path options = Throw (ThrownCDN e))
  ∧ (ok r = true →
     ∀ data, resp_json r = Return data →
             JS.get data "success" = Some (VBool true) →
             request pf this method path options = Return (Json data)).
Proof.
  intros Hans Hjson. split.
  - intros Hok. rewrite (request_answered _ _ _ _ _ _ Hans).
    destruct (resp_json r) as [data | t] eqn:Hdata.
    + destruct (request_envelope_failed r data (or_introl Hok)) as [t Ht].
      destruct (responseType options) as [[] |]; try done;
        simpl; rewrite Ht; apply request_catch_uniform.
    + destruct (responseType options) as [[] |]; try done;
        simpl; apply request_catch_uniform.
  - intros Hok data Hdata Hsuccess.
    rewrite (request_json_path _ _ _ _ _ _ _ Hans Hjson Hdata).
    unfold request_envelope, read_property. rewrite Hok, Hsuccess. reflexivity.
Qed.

Lemma request_status_decides_witness :
  (∃ e, request (responding server_error_success_body) example_client
          "GET" "/domains" (json_options VUndefined)
        = Throw (ThrownCDN e))
  ∧ request (responding domain_list) example_client
      "GET" "/domains" (json_options VUndefined)
    = Return (Json (VObj [("success", VBool true); ("data", VArr [])])).
Proof.
  split.
  - refine (proj1 (request_status_decides
                     (responding server_error_success_body) example_client
                     "GET" "/domains" (json_options VUndefined)
                     server_error_success_body _ _) _).
    + eexists. split; reflexivity.
    + discriminate.
    + reflexivity.
  - refine (proj2 (request_status_decides
                     (responding domain_list) example_client
                     "GET" "/domains" (json_options VUndefined)
                     domain_list _ _) _ _ _ _).
    + eexists. split; reflexivity.
    + discriminate.
    + reflexivity.
    + reflexivity.
    + reflexivity.
Defined.

(** ** Failures and the [catch] clause *)

(** A rejected [fetch] reaches the [catch] clause. *)
Lemma request_fetch_failure pf this method path options url0 t :
  new_URL pf (baseUrl this +:+ path) = Some url0 →
  fetch pf (request_call this method
              (add_query_parameters url0 (params options)) options)
  = Throw t →
  request pf this method path options = request_catch t.
Proof.
  intros Hurl Hfetch. unfold request, request_try.
  by rewrite Hurl, Hfetch.
Qed.

(** So does a body that cannot be read on an awaited path: [json()] on
    the JSON path, [text()] on the binary path of a refused download. *)
Lemma request_body_failure pf this method path options r t :
  answers pf this method path options r →
  (responseType options ≠ Some blob → resp_json r = Throw t →
     request pf this method path options = request_catch t)
  ∧ (responseType options = Some blob → ok r = false → resp_text r = Throw t →
     request pf this method path options = request_catch t).
Proof.
  intros Hans. rewrite (request_answered _ _ _ _ _ _ Hans). split.
  - intros Hjson Hdata.
    destruct (responseType options) as [[] |]; try done; by rewrite Hdata.
  - intros -> -> ->. reflexivity.
Qed.

(** A string that [new URL] refuses ends the call before the [try]
    statement is reached: the [TypeError] leaves the engine as it is. *)
Lemma request_invalid_URL pf this method path options :
  new_URL pf (baseUrl this +:+ path) = None →
  request pf this method path options
  = Throw (ThrownError "TypeError" "Invalid URL").
Proof. intros Hurl. unfold request. by rewrite Hurl. Qed.

(** C3.  The [catch] clause turns every failure it receives into
    [TIMEOUT], [NETWORK_ERROR] or [UNKNOWN_ERROR]
    ([request_catch_classifies]), but not every failure reaches it: the
    binary branch returns the promise of [response.blob()] without
    awaiting it, so when the body of a successful download cannot be read
    the platform's own [TypeError] is what the caller gets, not a
    [DataHordersCDNError]. *)
Theorem download_body_failure_escapes :
  download (responding interrupted_download) example_client
    "/certificates/cert_1/download"
  = Throw (ThrownError "TypeError" "terminated").
Proof. reflexivity. Qed.

(** C4, as stated, fails: a status 200 body that is not JSON makes the
    engine throw [NETWORK_ERROR], not [UNKNOWN_ERROR]. *)
Lemma undecodable_body_not_unknown_error :
  ok page_instead_of_json = true
  ∧ request (responding page_instead_of_json) example_client
      "GET" "/domains" (json_options VUndefined)
    = Throw (ThrownCDN {| message := "Unexpected token < in JSON at position 0";
                          code := VStr "NETWORK_ERROR";
                          status := 0;
                          details := None |})
  ∧ ¬ (∃ e, request (responding page_instead_of_json) example_client
              "GET" "/domains" (json_options VUndefined)
            = Throw (ThrownCDN e)
            ∧ code e = VStr "UNKNOWN_ERROR").
Proof.
  split; [reflexivity |]. split; [reflexivity |].
  intros (e & He & Hcode). vm_compute in He.
  injection He as <-. discriminate Hcode.
Qed.

(** C4, amended.  A response with a status in 200-299 whose body cannot
    be decoded as JSON, so that [response.json()] rejects with a
    [SyntaxError], makes the engine throw a [DataHordersCDNError] with
    code [NETWORK_ERROR], status 0 and the message of the decoding
    failure. *)
Theorem undecodable_body_is_network_error pf this method path options r msg :
  answers pf this method path options r →
  responseType options ≠ Some blob →
  ok r = true →
  resp_json r = Throw (ThrownError "SyntaxError" msg) →
  request pf this method path options
  = Throw (ThrownCDN {| message := msg;
                        code := VStr "NETWORK_ERROR";
                        status := 0;
                        details := None |}).
Proof.
  intros Hans Hjson _ Hdata. rewrite (request_answered _ _ _ _ _ _ Hans).
  destruct (responseType options) as [[] |]; try done; by rewrite Hdata.
Qed.

Lemma undecodable_body_is_network_error_witness :
  request (responding page_instead_of_json) example_client
    "GET" "/domains" (json_options VUndefined)
  = Throw (ThrownCDN {| message := "Unexpected token < in JSON at position 0";
                        code := VStr "NETWORK_ERROR";
                        status := 0;
                        details := None |}).
Proof.
  refine (undecodable_body_is_network_error
            (responding page_instead_of_json) example_client
            "GET" "/domains" (json_options VUndefined) page_instead_of_json
            "Unexpected token < in JSON at position 0" _ _ _ _).
  - eexists. split; reflexivity.
  - discriminate.
  - reflexivity.
  - reflexivity.
Defined.

(** C5.  A [DataHordersCDNError] thrown inside the [try] block, be it by
    the envelope branch or by the binary branch, is the error [request]
    throws: the [catch] clause passes it on as it is and makes no
    [TIMEOUT], [NETWORK_ERROR] or [UNKNOWN_ERROR] of it. *)
Theorem uniform_error_propagates pf this method path options url0 e :
  new_URL pf (baseUrl this +:+ path) = Some url0 →
  request_try pf
    (request_call this method (add_query_parameters url0 (params options)) options)
    options
  = Throw (ThrownCDN e) →
  request pf this method path options = Throw (ThrownCDN e)
  ∧ @request_catch payload (ThrownCDN e) = Throw (ThrownCDN e).
Proof.
  intros Hurl Htry. unfold request. rewrite Hurl, Htry. done.
Qed.

Lemma uniform_error_propagates_witness :
  request (responding missing_certificate) example_client "GET"
    "/certificates/cert_1/download" download_options
  = Throw (ThrownCDN {| message := "Certificate not found";
                        code := VStr "REQUEST_FAILED";
                        status := 404;
                        details := None |}).
Proof.
  refine (proj1 (uniform_error_propagates
                   (responding missing_certificate) example_client "GET"
                   "/certificates/cert_1/download" download_options
                   (plain_URL "https://api.example/v1/certificates/cert_1/download")
                   _ _ _)).
  - reflexivity.
  - reflexivity.
Defined.

(** ** The binary path *)

(** C8.  On the binary path a response with a status outside 200-299 is
    read as text and the engine throws [REQUEST_FAILED] with the
    response's status and that text as message, or [Request failed] when
    the text is empty; a response with a status in 200-299 makes it
    return the blob.  In neither case does the outcome depend on what
    decoding the body as JSON would give. *)
Theorem download_reads_text_or_blob pf this method path options r :
  answers pf this method path options r →
  responseType options = Some blob →
  (ok r = false →
     ∀ text, resp_text r = Return text →
       request pf this method path options
       = Throw (ThrownCDN
                  {| message := if String.eqb text EmptyString
                                then "Request failed" else text;
                     code := VStr "REQUEST_FAILED";
                     status := resp_status r;
                     details := None |}))
  ∧ (ok r = true →
     ∀ bytes, resp_blob r = Return bytes →
       request pf this method path options = Return (Blob bytes))
  ∧ (∀ pf' r',
       answers pf' this method path options r' →
       resp_status r' = resp_status r →
       resp_text r' = resp_text r →
       resp_blob r' = resp_blob r →
       request pf' this method path options
       = request pf this method path options).
Proof.
  intros Hans Hblob. rewrite (request_answered _ _ _ _ _ _ Hans), Hblob.
  split; [| split].
  - intros Hok text Htext. rewrite Hok, Htext. simpl.
    unfold or_else. simpl.
    destruct (String.eqb text EmptyString); reflexivity.
  - intros Hok bytes Hbytes. rewrite Hok, Hbytes. reflexivity.
  - intros pf' r' Hans' Hstatus Htext Hbytes.
    rewrite (request_answered _ _ _ _ _ _ Hans'), Hblob.
    unfold ok. by rewrite Hstatus, Htext, Hbytes.
Qed.

Lemma download_reads_text_or_blob_witness :
  request (responding bad_gateway) example_client "GET"
    "/certificates/cert_1/download" download_options
  = Throw (ThrownCDN {| message := "Request failed";
                        code := VStr "REQUEST_FAILED";
                        status := 502;
                        details := None |})
  ∧ request (responding archive) example_client "GET"
      "/certificates/cert_1/download" download_options
    = Return (Blob [Byte.x50; Byte.x4b; Byte.x03; Byte.x04]).
Proof.
  split.
  - refine (proj1 (download_reads_text_or_blob
                     (responding bad_gateway) example_client "GET"
                     "/certificates/cert_1/download" download_options
                     bad_gateway _ _) _ EmptyString _).
    + eexists. split; reflexivity.
    + reflexivity.
    + reflexivity.
    + reflexivity.
  - refine (proj1 (proj2 (download_reads_text_or_blob
                     (responding archive) example_client "GET"
                     "/certificates/cert_1/download" download_options
                     archive _ _)) _ _ _).
    + eexists. split; reflexivity.
    + reflexivity.
    + reflexivity.
    + reflexivity.
Defined.

(** ** The outgoing call: URL, headers, body *)

(** The loop appends exactly the kept entries, in order. *)
Lemma add_query_parameters_entries entries : ∀ url,
  add_query_parameters url (Some entries)
  = foldl (fun u kv => searchParams_append u kv.1 kv.2) url (defined_entries entries).
Proof.
  unfold add_query_parameters.
  induction entries as [| [k v] rest IH]; intros url; [reflexivity |].
  destruct v; simpl; apply IH.
Qed.

(** After at least one [append] the query is the serialization of the
    whole list. *)
Lemma searchParams_append_all l : ∀ url,
  l ≠ [] →
  foldl (fun u kv => searchParams_append u kv.1 kv.2) url l
  = {| url_base := url_base url;
       url_query := Some (urlencoded_serialize (url_searchParams url ++ l)%list);
       url_searchParams := (url_searchParams url ++ l)%list;
       url_fragment := url_fragment url |}.
Proof.
  induction l as [| [k v] rest IH]; intros url Hne; [done |].
  destruct rest as [| kv rest']; [reflexivity |].
  change (foldl _ url ((k, v) :: kv :: rest'))
    with (foldl (fun u kv => searchParams_append u kv.1 kv.2)
            (searchParams_append url k v) (kv :: rest')).
  rewrite IH by done. simpl. by rewrite <- !app_assoc.
Qed.

Lemma append_empty_r (s : string) : s +:+ EmptyString = s.
Proof.
  induction s as [| c s IH]; [reflexivity |].
  change (String c (s +:+ EmptyString) = String c s). by rewrite IH.
Qed.

Lemma append_assoc (a b c : string) : (a +:+ b) +:+ c = a +:+ b +:+ c.
Proof.
  induction a as [| x a IH]; [reflexivity |].
  change (String x ((a +:+ b) +:+ c) = String x (a +:+ b +:+ c)). by rewrite IH.
Qed.

Lemma URL_toString_plain s : URL_toString (plain_URL s) = s.
Proof.
  unfold URL_toString, plain_URL. cbn [url_base url_query url_fragment].
  by rewrite !append_empty_r.
Qed.

(** ** The text of a number *)

Lemma of_uint_acc_lower d : ∀ acc,
  (N.pos acc * 10 ^ N.of_nat (Decimal.nb_digits d)
   ≤ N.pos (Pos.of_uint_acc d acc))%N.
Proof.
  induction d; intros acc; cbn [Decimal.nb_digits Pos.of_uint_acc];
    try (rewrite N.pow_0_r; lia);
    rewrite Nat2N.inj_succ, N.pow_succ_r', N.mul_assoc;
    (etrans; [| apply IHd]); apply N.mul_le_mono_r; lia.
Qed.

(** The numeral of a positive number starts with a digit that is not
    zero, so its length bounds the number from below. *)
Lemma to_uint_lower p :
  (10 ^ N.of_nat (Decimal.nb_digits (Pos.to_uint p) - 1) ≤ N.pos p)%N.
Proof.
  rewrite <- (DecimalPos.Unsigned.of_to p).
  assert (Hnorm : Pos.to_uint p = Decimal.unorm (Pos.to_uint p)).
  { rewrite <- (DecimalPos.Unsigned.to_of (Pos.to_uint p)).
    by rewrite DecimalPos.Unsigned.of_to. }
  pose proof (DecimalPos.Unsigned.to_uint_nonzero p) as Hzero.
  pose proof (DecimalPos.Unsigned.to_uint_nonnil p) as Hnil.
  assert (Hacc : ∀ d acc,
    (10 ^ N.of_nat (Decimal.nb_digits d) ≤ N.pos (Pos.of_uint_acc d acc))%N).
  { intros d acc. etrans; [| apply of_uint_acc_lower].
    rewrite <- (N.mul_1_l (10 ^ _)) at 1. apply N.mul_le_mono_r. lia. }
  destruct (Pos.to_uint p) as [| d | d | d | d | d | d | d | d | d | d] eqn:Hd;
    [done | | cbn [Decimal.nb_digits Pos.of_uint];
              rewrite Nat.sub_succ, Nat.sub_0_r; apply Hacc ..].
  exfalso. rewrite DecimalFacts.unorm_D0 in Hnorm.
  assert (Hd0 : d ≠ Decimal.Nil) by (intros ->; by apply Hzero).
  pose proof (DecimalFacts.nb_digits_unorm d Hd0) as Hle.
  rewrite <- Hnorm in Hle. cbn [Decimal.nb_digits] in Hle. lia.
Qed.

Lemma string_of_uint_length d :
  String.length (NilEmpty.string_of_uint d) = Decimal.nb_digits d.
Proof. induction d; simpl; by rewrite ?IHd. Qed.

(** The numeral of a number up to [2^53] has at most 16 digits. *)
Lemma decimal_length a :
  0 < a ≤ 2 ^ 53 →
  (1 ≤ String.length (JSNumber.decimal a) ≤ 16)%nat.
Proof.
  intros Ha. unfold JSNumber.decimal.
  destruct a as [| p |]; [lia | | lia]. cbn [Z.to_N N.to_uint].
  pose proof (to_uint_lower p) as Hlow.
  pose proof (DecimalPos.Unsigned.to_uint_nonnil p) as Hnil.
  destruct (Pos.to_uint p) eqn:Hd; [done | ..];
    cbn [NilZero.string_of_uint]; rewrite string_of_uint_length;
    (split; [cbn [Decimal.nb_digits]; lia |]);
    (destruct (le_gt_dec (Decimal.nb_digits (Pos.to_uint p)) 16) as [Hle | Hgt];
       [by rewrite Hd in Hle |
        exfalso; rewrite <- Hd in Hlow;
        assert (10 ^ 16 ≤ 10 ^ N.of_nat (Decimal.nb_digits (Pos.to_uint p) - 1))%N
          by (apply N.pow_le_mono_r; lia);
        assert (N.pos p ≤ 2 ^ 53)%N by lia;
        assert (2 ^ 53 < 10 ^ 16)%N by (vm_compute; reflexivity);
        lia]).
Qed.

(** Stripping the zeros at the end and writing them again gives the
    string back. *)
Lemma strip_zeros_pad s :
  JSNumber.strip_zeros s
    +:+ JSNumber.zeros (String.length s - String.length (JSNumber.strip_zeros s))
  = s.
Proof.
  induction s as [| c s IH]; [reflexivity |].
  cbn [JSNumber.strip_zeros].
  destruct (JSNumber.strip_zeros s) as [| c' r] eqn:Hstrip.
  - cbn [String.length] in IH. rewrite Nat.sub_0_r in IH.
    change (EmptyString +:+ JSNumber.zeros (String.length s)) with
      (JSNumber.zeros (String.length s)) in IH.
    destruct (Ascii.N_of_ascii c =? 48)%N eqn:Hc.
    + apply N.eqb_eq in Hc.
      cbn [String.length]. rewrite Nat.sub_0_r. cbn [JSNumber.zeros].
      rewrite IH.
      rewrite <- (Ascii.ascii_N_embedding c), Hc. reflexivity.
    + cbn [String.length]. rewrite Nat.sub_succ, Nat.sub_0_r.
      change (String c EmptyString +:+ JSNumber.zeros (String.length s))
        with (String c (JSNumber.zeros (String.length s))).
      by rewrite IH.
  - change (String c (String c' r) +:+ ?z) with (String c (String c' r +:+ z)).
    cbn [String.length] in IH |- *. rewrite Nat.sub_succ. by rewrite IH.
Qed.

Lemma strip_zeros_length s :
  (String.length (JSNumber.strip_zeros s) ≤ String.length s)%nat.
Proof.
  induction s as [| c s IH]; [done |]. cbn [JSNumber.strip_zeros].
  destruct (JSNumber.strip_zeros s) as [| c' r].
  - destruct (Ascii.N_of_ascii c =? 48)%N; simpl; lia.
  - simpl in IH |- *. lia.
Qed.

(** An integer up to [2^53] in magnitude prints as its decimal
    numeral. *)
Lemma toString_integer z :
  - 2 ^ 53 ≤ z ≤ 2 ^ 53 →
  JSNumber.toString (JSNumber.of_Z z) = NilZero.string_of_int (Z.to_int z).
Proof.
  intros Hz. unfold JSNumber.of_Z.
  destruct (Z.eqb_spec z 0) as [-> | Hne]; [reflexivity |].
  assert (Ha : 0 < Z.abs z ≤ 2 ^ 53) by lia.
  destruct (Z.leb_spec (Z.abs z) (2 ^ 53)) as [_ | ?]; [| lia].
  pose proof (decimal_length _ Ha) as Hlen.
  pose proof (strip_zeros_length (JSNumber.decimal (Z.abs z))) as Hstrip.
  cbn [JSNumber.toString].
  set (d := JSNumber.decimal (Z.abs z)) in *.
  assert (Hrange : (-5 <=? Z.of_nat (String.length d)) && (Z.of_nat (String.length d) <=? 21)
                   = true) by (apply andb_true_intro; split; apply Z.leb_le; lia).
  rewrite Hrange.
  assert (Hk : (Z.of_nat (String.length (JSNumber.strip_zeros d))
                <=? Z.of_nat (String.length d)) = true) by (apply Z.leb_le; lia).
  rewrite Hk.
  rewrite <- Nat2Z.inj_sub by lia. rewrite Nat2Z.id, strip_zeros_pad.
  subst d. unfold JSNumber.decimal.
  destruct z as [| p | p]; [done | reflexivity | reflexivity].
Qed.

(** C6, as stated, fails for a path with a fragment: the query goes
    before the fragment, so the URL is not the base URL and the path
    with the entries after them. *)
Lemma fragment_comes_after_query :
  new_URL listing_with_fragment (baseUrl example_client +:+ "/domains#list")
  = Some domains_with_fragment
  ∧ fc_url (request_call example_client "GET"
              (add_query_parameters domains_with_fragment (params verified_domains))
              verified_domains)
    = "https://api.example/v1/domains?verified=true#list"
  ∧ spec_url (baseUrl example_client) "/domains#list" (params verified_domains)
    = "https://api.example/v1/domains#list?verified=true"
  ∧ fc_url (request_call example_client "GET"
              (add_query_parameters domains_with_fragment (params verified_domains))
              verified_domains)
    ≠ spec_url (baseUrl example_client) "/domains#list" (params verified_domains)
  ∧ request listing_with_fragment example_client "GET" "/domains#list"
      verified_domains
    = match
        request_try listing_with_fragment
          {| fc_url := "https://api.example/v1/domains?verified=true#list";
             fc_method := "GET";
             fc_headers := {[ "X-API-Key" := "secret" ]};
             fc_body := None |}
          verified_domains
      with
      | Return promise => promise
      | Throw error => request_catch error
      end.
Proof.
  split; [reflexivity |]. split; [reflexivity |]. split; [reflexivity |].
  split; [| reflexivity].
  vm_compute. discriminate.
Qed.

(** C6, amended.  When the base URL followed by the path is a URL in
    normal form without query or fragment, the URL the engine hands to
    [fetch] is the base URL, the path, and as query exactly the entries
    whose value is not [undefined], in order, as form-urlencoded
    [name=value] pairs, each value converted with [String]: a string is
    itself, [true] and [false] give [true] and [false], an integer up to
    [2^53] in magnitude gives its decimal numeral ([1] gives [1]), and
    numbers print as JavaScript prints them ([1e21] gives [1e+21], [1.5]
    gives [1.5], and in the query [1e21] reads [1e%2B21]); entries with
    an [undefined] value leave no trace.  For
    the base URL [https://api.example/v1], the path [/domains] and the
    record [{page: undefined, perPage: undefined, verified: 'true'}]
    this is [https://api.example/v1/domains?verified=true]. *)
Theorem request_url_keeps_defined_entries pf this method path options :
  new_URL pf (baseUrl this +:+ path) = Some (plain_URL (baseUrl this +:+ path)) →
  fc_url (request_call this method
            (add_query_parameters (plain_URL (baseUrl this +:+ path)) (params options))
            options)
  = spec_url (baseUrl this) path (params options)
  ∧ request pf this method path options
    = match
        request_try pf
          (request_call this method
             (add_query_parameters (plain_URL (baseUrl this +:+ path)) (params options))
             options)
          options
      with
      | Return promise => promise
      | Throw error => request_catch error
      end
  ∧ (∀ s, String_ (QString s) = s)
  ∧ (∀ b : bool, String_ (QBoolean b) = if b then "true" else "false")
  ∧ (∀ z : Z, - 2 ^ 53 ≤ z ≤ 2 ^ 53 →
       String_ (QNumber z) = NilZero.string_of_int (Z.to_int z))
  ∧ String_ (QNumber 1) = "1"
  ∧ String_ (QNumber (10 ^ 21)) = "1e+21"
  ∧ String_ (QNumber (JSNumber.Finite false "15" 1)) = "1.5"
  ∧ spec_url "https://api.example/v1" "/domains"
      (Some [("page", QUndefined); ("perPage", QUndefined);
             ("verified", QString "true")])
    = "https://api.example/v1/domains?verified=true"
  ∧ spec_url "https://api.example/v1" "/domains"
      (Some [("perPage", QNumber (10 ^ 21)); ("verified", QBoolean false)])
    = "https://api.example/v1/domains?perPage=1e%2B21&verified=false".
Proof.
  intros Hurl.
  split; [| split; [| split; [done |]; split; [by intros [] |];
                      split; [exact toString_integer |];
                      repeat (split; [reflexivity |]); reflexivity]].
  - unfold spec_url. simpl fc_url.
    destruct (params options) as [entries |].
    + change (default [] (Some entries)) with entries.
      rewrite add_query_parameters_entries.
      destruct (defined_entries entries) as [| p l] eqn:Hkept.
      * cbn [foldl]. rewrite URL_toString_plain. by rewrite append_empty_r.
      * rewrite searchParams_append_all by done.
        unfold URL_toString, plain_URL.
        cbn [url_base url_query url_fragment url_searchParams app].
        by rewrite append_empty_r, append_assoc.
    + unfold add_query_parameters.
      rewrite URL_toString_plain. by rewrite append_empty_r.
  - unfold request. by rewrite Hurl.
Qed.

Lemma request_url_keeps_defined_entries_witness :
  fc_url (request_call example_client "GET"
            (add_query_parameters (plain_URL "https://api.example/v1/domains")
               (params verified_domains))
            verified_domains)
  = "https://api.example/v1/domains?verified=true"
  ∧ String_ (QNumber 409) = "409"
  ∧ String_ (QNumber (-25)) = "-25".
Proof.
  destruct (request_url_keeps_defined_entries
              (responding domain_list) example_client "GET" "/domains"
              verified_domains eq_refl)
    as (Hurl & _ & _ & _ & Hinteger & _).
  split; [| split].
  - refine (eq_trans Hurl _). reflexivity.
  - refine (eq_trans (Hinteger 409 _) _).
    + split; discriminate.
    + reflexivity.
  - refine (eq_trans (Hinteger (-25) _) _).
    + split; discriminate.
    + reflexivity.
Defined.

(** C9, as stated, fails on [overriding_client]: the credential header
    does not carry the configured API key; without a body a content type
    is sent all the same; and with a body the configured content type is
    not the one that is sent. *)
Lemma credential_header_can_be_overridden :
  apiKey overriding_client = "secret"
  ∧ fc_headers (request_call overriding_client "GET"
                  (plain_URL "https://api.example/v1/domains")
                  (json_options VUndefined)) !! "X-API-Key"
    = Some "other"
  ∧ fc_headers (request_call overriding_client "GET"
                  (plain_URL "https://api.example/v1/domains")
                  (json_options VUndefined)) !! "Content-Type"
    = Some "text/plain"
  ∧ customHeaders overriding_client !! "Content-Type" = Some "text/plain"
  ∧ fc_headers (request_call overriding_client "POST"
                  (plain_URL "https://api.example/v1/domains")
                  (json_options (VObj [("domain", VStr "example.com")])))
      !! "Content-Type"
    = Some "application/json".
Proof. repeat split; vm_compute; reflexivity. Qed.

(** C9, amended.  The headers of every call are the additional headers
    laid over the credential entry: [X-API-Key] carries the configured
    API key when the additional headers have no [X-API-Key] entry of
    their own; every additional header other than [Content-Type] is sent
    with its configured value; [Content-Type] is [application/json] when
    the body is truthy, and otherwise is whatever the additional headers
    say, the engine adding none of its own. *)
Theorem request_headers_layers this method url options :
  (customHeaders this !! "X-API-Key" = None →
     fc_headers (request_call this method url options) !! "X-API-Key"
     = Some (apiKey this))
  ∧ (∀ k v, customHeaders this !! k = Some v → k ≠ "Content-Type" →
       fc_headers (request_call this method url options) !! k = Some v)
  ∧ (truthy (body options) = true →
       fc_headers (request_call this method url options) !! "Content-Type"
       = Some "application/json")
  ∧ (truthy (body options) = false →
       fc_headers (request_call this method url options) !! "Content-Type"
       = customHeaders this !! "Content-Type").
Proof.
  unfold request_call, request_headers. cbn [fc_headers].
  repeat split.
  - intros Hnone. destruct (truthy (body options)).
    + rewrite lookup_insert_ne by done.
      rewrite lookup_union_r by done. apply lookup_singleton_eq.
    + rewrite lookup_union_r by done. apply lookup_singleton_eq.
  - intros k v Hk Hne. destruct (truthy (body options)).
    + rewrite lookup_insert_ne by done. by apply lookup_union_Some_l.
    + by apply lookup_union_Some_l.
  - intros ->. apply lookup_insert_eq.
  - intros ->. rewrite lookup_union_l; [done |].
    by rewrite lookup_singleton_ne.
Qed.

Lemma request_headers_layers_witness :
  fc_headers (request_call example_client "POST"
                (plain_URL "https://api.example/v1/domains")
                (json_options (VObj [("domain", VStr "example.com")])))
    !! "X-API-Key"
  = Some "secret"
  ∧ fc_headers (request_call overriding_client "GET"
                  (plain_URL "https://api.example/v1/domains")
                  (json_options VUndefined)) !! "X-API-Key"
    = Some "other"
  ∧ fc_headers (request_call example_client "POST"
                  (plain_URL "https://api.example/v1/domains")
                  (json_options (VObj [("domain", VStr "example.com")])))
      !! "Content-Type"
    = Some "application/json"
  ∧ fc_headers (request_call example_client "GET"
                  (plain_URL "https://api.example/v1/domains")
                  (json_options VUndefined)) !! "Content-Type"
    = None.
Proof.
  split; [| split; [| split]].
  - refine (proj1 (request_headers_layers example_client "POST"
                     (plain_URL "https://api.example/v1/domains")
                     (json_options (VObj [("domain", VStr "example.com")]))) _).
    reflexivity.
  - refine (proj1 (proj2 (request_headers_layers overriding_client "GET"
                     (plain_URL "https://api.example/v1/domains")
                     (json_options VUndefined))) "X-API-Key" "other" _ _).
    + reflexivity.
    + discriminate.
  - refine (proj1 (proj2 (proj2 (request_headers_layers example_client "POST"
                     (plain_URL "https://api.example/v1/domains")
                     (json_options (VObj [("domain", VStr "example.com")]))))) _).
    reflexivity.
  - refine (eq_trans
              (proj2 (proj2 (proj2 (request_headers_layers example_client "GET"
                     (plain_URL "https://api.example/v1/domains")
                     (json_options VUndefined)))) _) _).
    + reflexivity.
    + reflexivity.
Defined.

(** C10.  A body of [0], [false], the empty string or [null] is treated
    as no body at all: the call carries no body, its headers are the
    additional headers over the credential entry with no content type set
    by the engine, and the whole request behaves as the one without a
    body. *)
Theorem falsy_body_is_no_body pf this method path b ps rt :
  b = VNum 0 ∨ b = VBool false ∨ b = VStr EmptyString ∨ b = VNull →
  (∀ url,
     fc_body (request_call this method url
                {| body := b; params := ps; responseType := rt |}) = None
     ∧ fc_headers (request_call this method url
                     {| body := b; params := ps; responseType := rt |})
       = customHeaders this ∪ {[ "X-API-Key" := apiKey this ]}
     ∧ request_call this method url
         {| body := b; params := ps; responseType := rt |}
       = request_call this method url
           {| body := VUndefined; params := ps; responseType := rt |})
  ∧ request pf this method path
      {| body := b; params := ps; responseType := rt |}
    = request pf this method path
        {| body := VUndefined; params := ps; responseType := rt |}
  ∧ post pf this path b ps = post pf this path VUndefined ps.
Proof.
  intros [-> | [-> | [-> | ->]]]; repeat split; reflexivity.
Qed.

Lemma falsy_body_is_no_body_witness :
  fc_body (request_call example_client "POST"
             (plain_URL "https://api.example/v1/counters")
             (json_options (VNum 0))) = None
  ∧ fc_headers (request_call example_client "POST"
                  (plain_URL "https://api.example/v1/counters")
                  (json_options (VNum 0))) !! "Content-Type" = None.
Proof.
  destruct (proj1 (falsy_body_is_no_body
                     (responding domain_list) example_client "POST" "/counters"
                     (VNum 0) None None (or_introl eq_refl))
              (plain_URL "https://api.example/v1/counters"))
    as (Hbody & Hheaders & _).
  split.
  - exact Hbody.
  - refine (eq_trans (f_equal (fun h => h !! "Content-Type") Hheaders) _).
    reflexivity.
Defined.

(** ** Polling for an ACME certificate *)

Section waitForActive.

Variable client : HttpClient.
Variable certificateId : string.
Variable startTime : Z.
Variable interval deadline : Z.

Local Abbreviation reports := (reports_before client certificateId startTime deadline).
Local Abbreviation pending := (pending_before client certificateId startTime deadline).
Local Abbreviation events := (checks_and_delays certificateId interval).

Lemma poll_pending_round r rest :
  pending r →
  poll client certificateId interval deadline startTime (r :: rest)
  = (StatusCheck certificateId :: Delay interval
       :: (poll client certificateId interval deadline startTime rest).1,
     (poll client certificateId interval deadline startTime rest).2).
Proof.
  intros (status & Hnow & Hstatus & Hpending).
  cbn [poll]. apply Z.ltb_lt in Hnow. rewrite Hnow, Hstatus.
  unfold read_property. rewrite Hpending. simpl.
  by destruct (poll client certificateId interval deadline startTime rest).
Qed.

Lemma poll_pending_prefix pend rest :
  Forall pending pend →
  poll client certificateId interval deadline startTime (pend ++ rest)
  = ((events (length pend)
       ++ (poll client certificateId interval deadline startTime rest).1)%list,
     (poll client certificateId interval deadline startTime rest).2).
Proof.
  induction 1 as [| r pend Hr _ IH].
  - simpl. by destruct (poll client certificateId interval deadline startTime rest).
  - change ((r :: pend) ++ rest)%list with (r :: (pend ++ rest))%list.
    rewrite (poll_pending_round _ _ Hr), IH. reflexivity.
Qed.

(** What [waitForActive] runs the loop with. *)
Lemma waitForActive_configured options rounds :
  configured (options ≫= wait_pollInterval) 10000 interval →
  configured (options ≫= wait_timeout) 300000 deadline →
  waitForActive client certificateId options startTime rounds
  = poll client certificateId interval deadline startTime rounds.
Proof.
  intros Hinterval Hdeadline. unfold waitForActive, pollInterval_of, timeout_of.
  destruct Hinterval as [-> | [-> ->]], Hdeadline as [-> | [-> ->]]; reflexivity.
Qed.

(** C7.  Let the interval be the configured [pollInterval] (10000 when
    none is configured) and the deadline the configured [timeout] (300000
    when none is).  [waitForActive], finding the certificate pending,
    pending and then active, returns the active status after exactly
    three status checks and two delays, each a timer set for the
    interval; finding it failed (or in error) after any number of
    pending rounds, while the deadline has not passed, it throws
    [CERTIFICATE_FAILED] at that check, with no further delay; finding it
    pending until a reading of the clock is at or past the deadline, it
    throws [TIMEOUT]. *)
Theorem waitForActive_outcomes options :
  configured (options ≫= wait_pollInterval) 10000 interval →
  configured (options ≫= wait_timeout) 300000 deadline →
  (∀ r1 r2 r3 rest status,
     pending r1 → pending r2 →
     reports "active" status r3 →
     waitForActive client certificateId options startTime (r1 :: r2 :: r3 :: rest)
     = ([StatusCheck certificateId; Delay interval;
         StatusCheck certificateId; Delay interval;
         StatusCheck certificateId],
        Some (Return status)))
  ∧ (∀ pend r rest s status (msg : option string),
       Forall pending pend →
       s = "failed" ∨ s = "error" →
       reports s status r →
       JS.get status "message" = Some (from_option VStr VUndefined msg) →
       waitForActive client certificateId options startTime (pend ++ r :: rest)
       = ((events (length pend) ++ [StatusCheck certificateId])%list,
          Some (Throw (ThrownCDN
                  {| message := match msg with
                                | Some (String c m) => String c m
                                | _ => "Certificate issuance failed"
                                end;
                     code := VStr "CERTIFICATE_FAILED";
                     status := 0;
                     details := None |}))))
  ∧ (∀ pend r rest,
       Forall pending pend →
       deadline ≤ now r - startTime →
       waitForActive client certificateId options startTime (pend ++ r :: rest)
       = (events (length pend),
          Some (Throw (ThrownCDN
                  {| message := "Timeout waiting for certificate to become active";
                     code := VStr "TIMEOUT";
                     status := 0;
                     details := None |})))).
Proof.
  intros Hinterval Hdeadline.
  split; [| split].
  - intros r1 r2 r3 rest status H1 H2 (Hnow & Hstatus & Hactive).
    rewrite (waitForActive_configured _ _ Hinterval Hdeadline).
    rewrite (poll_pending_round _ _ H1), (poll_pending_round _ _ H2).
    cbn [poll]. apply Z.ltb_lt in Hnow. rewrite Hnow, Hstatus.
    unfold read_property. rewrite Hactive. reflexivity.
  - intros pend r rest s status msg Hpend Hs (Hnow & Hstatus & Hfailed) Hmsg.
    rewrite (waitForActive_configured _ _ Hinterval Hdeadline).
    rewrite (poll_pending_prefix _ _ Hpend).
    cbn [poll]. apply Z.ltb_lt in Hnow. rewrite Hnow, Hstatus.
    unfold read_property. rewrite Hfailed, Hmsg.
    destruct Hs as [-> | ->]; destruct msg as [[| c m] |]; reflexivity.
  - intros pend r rest Hpend Hnow.
    rewrite (waitForActive_configured _ _ Hinterval Hdeadline).
    rewrite (poll_pending_prefix _ _ Hpend).
    cbn [poll]. apply Z.ltb_ge in Hnow. rewrite Hnow.
    simpl. by rewrite app_nil_r.
Qed.

End waitForActive.

Lemma reporting_reports t s deadline :
  t < deadline →
  reports_before example_client "cert_1" 0 deadline s
    (certificate_status s) (reporting t s).
Proof.
  intros Ht. split; [| split].
  - simpl. rewrite Z.sub_0_r. exact Ht.
  - reflexivity.
  - reflexivity.
Defined.

Lemma waitForActive_outcomes_witness :
  waitForActive example_client "cert_1" every_second 0
    [reporting 0 "pending"; reporting 1002 "pending"; reporting 2005 "active"]
  = ([StatusCheck "cert_1"; Delay 1000; StatusCheck "cert_1"; Delay 1000;
      StatusCheck "cert_1"],
     Some (Return (certificate_status "active")))
  ∧ waitForActive example_client "cert_1" None 0
      [reporting 0 "pending"; reporting 10002 "pending"; reporting 20005 "active"]
    = ([StatusCheck "cert_1"; Delay 10000; StatusCheck "cert_1"; Delay 10000;
        StatusCheck "cert_1"],
       Some (Return (certificate_status "active")))
  ∧ waitForActive example_client "cert_1" every_second 0
      [reporting 0 "pending"; reporting 1002 "failed"; reporting 2005 "active"]
    = ([StatusCheck "cert_1"; Delay 1000; StatusCheck "cert_1"],
       Some (Throw (ThrownCDN {| message := "Certificate issuance failed";
                                 code := VStr "CERTIFICATE_FAILED";
                                 status := 0;
                                 details := None |})))
  ∧ waitForActive example_client "cert_1" every_second 0
      [reporting 0 "pending"; reporting 2500 "pending"; reporting 5001 "pending"]
    = ([StatusCheck "cert_1"; Delay 1000; StatusCheck "cert_1"; Delay 1000],
       Some (Throw (ThrownCDN
               {| message := "Timeout waiting for certificate to become active";
                  code := VStr "TIMEOUT";
                  status := 0;
                  details := None |}))).
Proof.
  split; [| split; [| split]].
  - refine (proj1 (waitForActive_outcomes example_client "cert_1" 0 1000 5000
                     every_second _ _)
              (reporting 0 "pending") (reporting 1002 "pending")
              (reporting 2005 "active") [] (certificate_status "active") _ _ _).
    + left. reflexivity.
    + left. reflexivity.
    + exists (certificate_status "pending"). apply reporting_reports. reflexivity.
    + exists (certificate_status "pending"). apply reporting_reports. reflexivity.
    + apply reporting_reports. reflexivity.
  - refine (proj1 (waitForActive_outcomes example_client "cert_1" 0 10000 300000
                     None _ _)
              (reporting 0 "pending") (reporting 10002 "pending")
              (reporting 20005 "active") [] (certificate_status "active") _ _ _).
    + right. split; reflexivity.
    + right. split; reflexivity.
    + exists (certificate_status "pending"). apply reporting_reports. reflexivity.
    + exists (certificate_status "pending"). apply reporting_reports. reflexivity.
    + apply reporting_reports. reflexivity.
  - refine (proj1 (proj2 (waitForActive_outcomes example_client "cert_1" 0 1000 5000
                            every_second _ _))
              [reporting 0 "pending"] (reporting 1002 "failed")
              [reporting 2005 "active"] "failed" (certificate_status "failed")
              None _ _ _ _).
    + left. reflexivity.
    + left. reflexivity.
    + constructor; [| constructor].
      exists (certificate_status "pending"). apply reporting_reports. reflexivity.
    + left. reflexivity.
    + apply reporting_reports. reflexivity.
    + reflexivity.
  - refine (proj2 (proj2 (waitForActive_outcomes example_client "cert_1" 0 1000 5000
                            every_second _ _))
              [reporting 0 "pending"; reporting 2500 "pending"]
              (reporting 5001 "pending") [] _ _).
    + left. reflexivity.
    + left. reflexivity.
    + constructor; [| constructor; [| constructor]].
      * exists (certificate_status "pending"). apply reporting_reports. reflexivity.
      * exists (certificate_status "pending"). apply reporting_reports. reflexivity.
    + discriminate.
Defined.

(** * Further properties *)

(** ** What [request] can return and throw *)

Lemma read_property_throws v k t :
  read_property v k = Throw t → ∃ msg, t = ThrownError "TypeError" msg.
Proof.
  unfold read_property. destruct (JS.get v k); [done |].
  intros [= <-]. eauto.
Qed.

Lemma throw_new_cases {A : Type} (m c : value) (s : Z) (d : value) t :
  @throw_new A m c s d = Throw t →
  (∃ e, t = ThrownCDN e ∧ status e = s ∧ code e = c)
  ∨ (∃ msg, t = ThrownError "TypeError" msg).
Proof.
  unfold throw_new, new_DataHordersCDNError.
  destruct m; try (simpl; intros [= <-]; left; eauto; fail);
    match goal with
    | |- context [ToString ?v] =>
        destruct (ToString v); simpl; intros [= <-]; [left | right]; eauto
    end.
Qed.

Lemma request_catch_never_returns {A : Type} (t : thrown) (a : A) :
  request_catch t ≠ Return a.
Proof. destruct (@request_catch_uniform A t) as [e ->]. done. Qed.

(** What the [catch] clause makes of an error that is no
    [DataHordersCDNError]. *)
Lemma request_catch_platform_error {A : Type} (t : thrown) e :
  (∀ e', t ≠ ThrownCDN e') →
  @request_catch A t = Throw (ThrownCDN e) →
  status e = 0 ∧ details e = None
  ∧ (code e = VStr "TIMEOUT" ∨ code e = VStr "NETWORK_ERROR"
     ∨ code e = VStr "UNKNOWN_ERROR").
Proof.
  intros Hforeign. destruct t as [e' | name msg | v]; simpl.
  - by destruct (Hforeign e').
  - destruct (String.eqb name "AbortError"); intros [= <-]; simpl; auto.
  - intros [= <-]; simpl; auto.
Qed.

(** The envelope code returns only the document itself, and only for a
    status in 200-299 with a truthy [success]. *)
Lemma request_envelope_returns r data p :
  request_envelope r data = Return p →
  p = Return (Json data) ∧ ok r = true
  ∧ ∃ s, JS.get data "success" = Some s ∧ truthy s = true.
Proof.
  unfold request_envelope. destruct (ok r); simpl.
  - unfold read_property at 1.
    destruct (JS.get data "success") as [s |] eqn:Hs; simpl; [| done].
    destruct (truthy s) eqn:Ht; simpl.
    + intros [= <-]. eauto.
    + intros H. exfalso. revert H.
      destruct (read_property data "error") as [err |]; simpl; [| done].
      destruct (read_property _ "message"); simpl; [| done].
      destruct (read_property _ "code"); simpl; [| done].
      destruct (read_property _ "details"); simpl; [| done].
      match goal with
      | |- context [throw_new ?m ?c ?s ?d] =>
          destruct (@throw_new_throws (completion payload) m c s d) as [t ->]
      end. done.
  - intros H. exfalso. revert H.
    destruct (read_property data "error") as [err |]; simpl; [| done].
    destruct (read_property _ "message"); simpl; [| done].
    destruct (read_property _ "code"); simpl; [| done].
    destruct (read_property _ "details"); simpl; [| done].
    match goal with
    | |- context [throw_new ?m ?c ?s ?d] =>
        destruct (@throw_new_throws (completion payload) m c s d) as [t ->]
    end. done.
Qed.

(** What the envelope code throws is an error with the response's status,
    or the [TypeError] of a failed read or conversion. *)
Lemma request_envelope_throws r data t :
  request_envelope r data = Throw t →
  (∃ e, t = ThrownCDN e ∧ status e = resp_status r)
  ∨ (∃ msg, t = ThrownError "TypeError" msg).
Proof.
  unfold request_envelope.
  assert (Hbranch : ∀ t,
    (err <- read_property data "error" ;;
     let error :=
       if typeof_string err
       then VObj [("code", VStr "API_ERROR"); ("message", err)]
       else err in
     msg <- read_property error "message" ;;
     cod <- read_property error "code" ;;
     det <- read_property error "details" ;;
     @throw_new (completion payload) msg cod (resp_status r) det) = Throw t →
    (∃ e, t = ThrownCDN e ∧ status e = resp_status r)
    ∨ (∃ msg, t = ThrownError "TypeError" msg)).
  { clear t. intros t.
    destruct (read_property data "error") as [err |] eqn:H0; simpl;
      [| intros [= <-]; right; by eapply read_property_throws].
    destruct (read_property _ "message") as [m |] eqn:H1; simpl;
      [| intros [= <-]; right; by eapply read_property_throws].
    destruct (read_property _ "code") as [c |] eqn:H2; simpl;
      [| intros [= <-]; right; by eapply read_property_throws].
    destruct (read_property _ "details") as [d |] eqn:H3; simpl;
      [| intros [= <-]; right; by eapply read_property_throws].
    intros H. destruct (throw_new_cases _ _ _ _ _ H) as [(e & -> & Hs & _) | ?];
      [left; eauto | by right]. }
  destruct (negb (ok r)); simpl; [apply Hbranch |].
  destruct (read_property data "success") as [s |] eqn:Hs; simpl;
    [| intros [= <-]; right; by eapply read_property_throws].
  destruct (truthy s); simpl; [done | apply Hbranch].
Qed.

(** What the [try] block and the [catch] clause resolve to on the JSON
    path, for the call they are given. *)
Lemma request_try_returns pf call options v :
  responseType options ≠ Some blob →
  match request_try pf call options with
  | Return promise => promise
  | Throw error => request_catch error
  end = Return v →
  ∃ r data s,
    fetch pf call = Return r
    ∧ ok r = true
    ∧ resp_json r = Return data
    ∧ v = Json data
    ∧ JS.get data "success" = Some s ∧ truthy s = true.
Proof.
  intros Hjson. unfold request_try.
  destruct (fetch pf call) as [r | t] eqn:Hfetch; simpl;
    [| intros H; by apply request_catch_never_returns in H].
  destruct (responseType options) as [[] |]; try done.
  all: destruct (resp_json r) as [data | t] eqn:Hdata; simpl;
    [| intros H; by apply request_catch_never_returns in H].
  all: destruct (request_envelope r data) as [p | t] eqn:Henv;
    [| intros H; by apply request_catch_never_returns in H].
  all: destruct (request_envelope_returns _ _ _ Henv) as (-> & Hok & s & Hs & Ht).
  all: intros [= <-]; exists r, data, s; done.
Qed.

(** X1.  On the JSON path [request] resolves to a value only when the
    response has a status in 200-299 and the parsed document has a truthy
    [success] property; the value is that document. *)
Theorem request_returns_only_success pf this method path options v :
  responseType options ≠ Some blob →
  request pf this method path options = Return v →
  ∃ r data s,
    answers pf this method path options r
    ∧ ok r = true
    ∧ resp_json r = Return data
    ∧ v = Json data
    ∧ JS.get data "success" = Some s ∧ truthy s = true.
Proof.
  intros Hjson. unfold request.
  destruct (new_URL pf (baseUrl this +:+ path)) as [url0 |] eqn:Hurl; [| done].
  intros Hreturn.
  destruct (request_try_returns _ _ _ _ Hjson Hreturn)
    as (r & data & s & Hfetch & Hok & Hdata & Hv & Hs & Ht).
  exists r, data, s. repeat split; try done.
  exists url0. by split.
Qed.

Lemma request_returns_only_success_witness :
  ∃ r data s,
    answers (responding domain_list) example_client "GET" "/domains"
      (json_options VUndefined) r
    ∧ ok r = true
    ∧ resp_json r = Return data
    ∧ Json (VObj [("success", VBool true); ("data", VArr [])]) = Json data
    ∧ JS.get data "success" = Some s ∧ truthy s = true.
Proof.
  refine (request_returns_only_success
            (responding domain_list) example_client "GET" "/domains"
            (json_options VUndefined) _ _ _).
  - discriminate.
  - reflexivity.
Defined.

Lemma or_else_text text :
  ∃ m, or_else (VStr text) (VStr "Request failed") = VStr m.
Proof. unfold or_else. destruct (truthy (VStr text)); eauto. Qed.

(** X2.  An error that is no [DataHordersCDNError] leaves [request] in
    two ways only: as the [TypeError] of [new URL], or, on the binary
    path, as the rejection of the blob of a response with a status in
    200-299.  On the JSON path, once the URL is built, everything
    [request] throws is a [DataHordersCDNError]. *)
Theorem request_raw_error_origin pf this method path options t :
  (∀ e, t ≠ ThrownCDN e) →
  request pf this method path options = Throw t →
  (new_URL pf (baseUrl this +:+ path) = None
   ∧ t = ThrownError "TypeError" "Invalid URL")
  ∨ (responseType options = Some blob
     ∧ ∃ r, answers pf this method path options r
            ∧ ok r = true ∧ resp_blob r = Throw t).
Proof.
  intros Hraw. unfold request, request_try.
  assert (Hcatch : ∀ t0, @request_catch payload t0 = Throw t → False).
  { intros t0 H. destruct (@request_catch_uniform payload t0) as [e He].
    rewrite He in H. injection H as <-. by destruct (Hraw e). }
  destruct (new_URL pf (baseUrl this +:+ path)) as [url0 |] eqn:Hurl;
    [| intros [= <-]; by left].
  destruct (fetch pf _) as [r | t0] eqn:Hfetch; simpl;
    [| intros H; by destruct (Hcatch _ H)].
  assert (Hans : answers pf this method path options r) by (exists url0; done).
  destruct (responseType options) as [[] |] eqn:Htype.
  2: { destruct (ok r) eqn:Hok; cbn [negb].
       - destruct (resp_blob r) as [bytes | t0] eqn:Hblob; simpl; [done |].
         intros [= <-]. right. split; [done |]. by exists r.
       - destruct (resp_text r) as [text | t0]; cbn [bind];
           [| intros H; by destruct (Hcatch _ H)].
         destruct (or_else_text text) as [m ->].
         rewrite throw_new_string. intros H. by destruct (Hcatch _ H). }
  all: destruct (resp_json r) as [data | t0]; simpl;
    [| intros H; by destruct (Hcatch _ H)].
  all: destruct (request_envelope r data) as [p | t0] eqn:Henv;
    [| intros H; by destruct (Hcatch _ H)].
  all: by destruct (request_envelope_returns _ _ _ Henv) as (-> & _).
Qed.

Lemma request_raw_error_origin_witness :
  (new_URL (responding interrupted_download)
     (baseUrl example_client +:+ "/certificates/cert_1/download") = None
   ∧ ThrownError "TypeError" "terminated" = ThrownError "TypeError" "Invalid URL")
  ∨ (responseType download_options = Some blob
     ∧ ∃ r, answers (responding interrupted_download) example_client "GET"
              "/certificates/cert_1/download" download_options r
            ∧ ok r = true
            ∧ resp_blob r = Throw (ThrownError "TypeError" "terminated")).
Proof.
  refine (request_raw_error_origin
            (responding interrupted_download) example_client "GET"
            "/certificates/cert_1/download" download_options
            (ThrownError "TypeError" "terminated") _ _).
  - discriminate.
  - reflexivity.
Defined.

(** X3.  Once [fetch] has answered, the status of a [DataHordersCDNError]
    thrown by [request] is the response's status, or it is 0, and then
    the error has no details and its code is [TIMEOUT], [NETWORK_ERROR]
    or [UNKNOWN_ERROR]. *)
Theorem request_error_status pf this method path options r e :
  answers pf this method path options r →
  platform_outcome (resp_text r) →
  platform_outcome (resp_json r) →
  platform_outcome (resp_blob r) →
  request pf this method path options = Throw (ThrownCDN e) →
  status e = resp_status r
  ∨ (status e = 0 ∧ details e = None
     ∧ (code e = VStr "TIMEOUT" ∨ code e = VStr "NETWORK_ERROR"
        ∨ code e = VStr "UNKNOWN_ERROR")).
Proof.
  intros Hans Htext Hjson Hblob.
  rewrite (request_answered _ _ _ _ _ _ Hans).
  assert (Henvelope :
    match (data <- resp_json r ;; request_envelope r data) with
    | Return promise => promise
    | Throw error => request_catch error
    end = Throw (ThrownCDN e) →
    status e = resp_status r
    ∨ (status e = 0 ∧ details e = None
       ∧ (code e = VStr "TIMEOUT" ∨ code e = VStr "NETWORK_ERROR"
          ∨ code e = VStr "UNKNOWN_ERROR"))).
  { destruct (resp_json r) as [data | t] eqn:Hdata; simpl.
    - destruct (request_envelope r data) as [p | t] eqn:Henv.
      + by destruct (request_envelope_returns _ _ _ Henv) as (-> & _).
      + destruct (request_envelope_throws _ _ _ Henv)
          as [(e' & -> & Hs) | (msg & ->)].
        * simpl. intros [= <-]. by left.
        * intros H. right. revert H. by apply request_catch_platform_error.
    - intros H. right. revert H. apply request_catch_platform_error.
      intros e' ->. by destruct (Hjson e'). }
  destruct (responseType options) as [[] |]; try exact Henvelope.
  destruct (ok r); cbn [negb].
  - destruct (resp_blob r) as [bytes | t] eqn:Hb; simpl; [done |].
    intros [= ->]. by destruct (Hblob e).
  - destruct (resp_text r) as [text | t] eqn:Ht; cbn [bind].
    + destruct (or_else_text text) as [m ->].
      rewrite throw_new_string. intros [= <-]. by left.
    + intros H. right. revert H. apply request_catch_platform_error.
      intros e' ->. by destruct (Htext e').
Qed.

Lemma request_error_status_witness :
  (409 : Z) = resp_status domain_exists
  ∨ ((409 : Z) = 0 ∧ (None : option value) = None
     ∧ (VStr "DOMAIN_EXISTS" = VStr "TIMEOUT"
        ∨ VStr "DOMAIN_EXISTS" = VStr "NETWORK_ERROR"
        ∨ VStr "DOMAIN_EXISTS" = VStr "UNKNOWN_ERROR")).
Proof.
  refine (request_error_status
            (responding domain_exists) example_client "POST" "/domains"
            (json_options (VObj [("domain", VStr "example.com")]))
            domain_exists
            {| message := "Domain already registered";
               code := VStr "DOMAIN_EXISTS"; status := 409; details := None |}
            _ _ _ _ _).
  - eexists. split; reflexivity.
  - intros e. discriminate.
  - intros e. discriminate.
  - intros e. discriminate.
  - reflexivity.
Defined.

(** X4.  When [fetch] itself rejects, on either path, [request] throws
    [TIMEOUT] with message [Request timeout] for an [AbortError],
    [NETWORK_ERROR] with the error's own message for any other [Error],
    and [UNKNOWN_ERROR] for a thrown value that is no [Error]; the status
    is 0 each time. *)
Theorem request_fetch_rejection pf this method path options url0 t :
  new_URL pf (baseUrl this +:+ path) = Some url0 →
  fetch pf (request_call this method
              (add_query_parameters url0 (params options)) options)
  = Throw t →
  (∀ msg, t = ThrownError "AbortError" msg →
     request pf this method path options
     = Throw (ThrownCDN {| message := "Request timeout"; code := VStr "TIMEOUT";
                           status := 0; details := None |}))
  ∧ (∀ name msg, t = ThrownError name msg → name ≠ "AbortError" →
       request pf this method path options
       = Throw (ThrownCDN {| message := msg; code := VStr "NETWORK_ERROR";
                             status := 0; details := None |}))
  ∧ (∀ v, t = ThrownValue v →
       request pf this method path options
       = Throw (ThrownCDN {| message := "Unknown error occurred";
                             code := VStr "UNKNOWN_ERROR";
                             status := 0; details := None |})).
Proof.
  intros Hurl Hfetch.
  rewrite (request_fetch_failure _ _ _ _ _ _ _ Hurl Hfetch).
  destruct (@request_catch_classifies payload) as (Habort & Herror & Hvalue).
  split; [| split].
  - intros msg ->. apply Habort.
  - intros name msg -> Hname. by apply Herror.
  - intros v ->. apply Hvalue.
Qed.

Lemma request_fetch_rejection_witness :
  request (rejecting (ThrownError "AbortError" "This operation was aborted"))
    example_client "GET" "/domains" (json_options VUndefined)
  = Throw (ThrownCDN {| message := "Request timeout"; code := VStr "TIMEOUT";
                        status := 0; details := None |})
  ∧ request (rejecting (ThrownError "TypeError" "fetch failed"))
      example_client "GET" "/certificates/cert_1/download" download_options
    = Throw (ThrownCDN {| message := "fetch failed"; code := VStr "NETWORK_ERROR";
                          status := 0; details := None |}).
Proof.
  split.
  - refine (proj1 (request_fetch_rejection
                     (rejecting (ThrownError "AbortError" "This operation was aborted"))
                     example_client "GET" "/domains" (json_options VUndefined)
                     (plain_URL "https://api.example/v1/domains")
                     (ThrownError "AbortError" "This operation was aborted") _ _)
              "This operation was aborted" _).
    + reflexivity.
    + reflexivity.
    + reflexivity.
  - refine (proj1 (proj2 (request_fetch_rejection
                     (rejecting (ThrownError "TypeError" "fetch failed"))
                     example_client "GET" "/certificates/cert_1/download"
                     download_options
                     (plain_URL "https://api.example/v1/certificates/cert_1/download")
                     (ThrownError "TypeError" "fetch failed") _ _))
              "TypeError" "fetch failed" _ _).
    + reflexivity.
    + reflexivity.
    + reflexivity.
    + discriminate.
Defined.

(** X5.  On the error branch of the JSON path, a document whose [error]
    is missing or [null] (or a document that is itself [null]) makes the
    engine throw [NETWORK_ERROR] with status 0: the envelope code fails
    with a [TypeError] and the response's own status is not reported. *)
Theorem request_error_without_error_field pf this method path options r data :
  answers pf this method path options r →
  responseType options ≠ Some blob →
  resp_json r = Return data →
  ok r = false ∨ (∃ s, JS.get data "success" = Some s ∧ truthy s = false) →
  JS.get data "error" = None
  ∨ JS.get data "error" = Some VUndefined
  ∨ JS.get data "error" = Some VNull →
  ∃ msg,
    request pf this method path options
    = Throw (ThrownCDN {| message := msg; code := VStr "NETWORK_ERROR";
                          status := 0; details := None |}).
Proof.
  intros Hans Hjson Hdata Hfail Herr.
  rewrite (request_json_path _ _ _ _ _ _ _ Hans Hjson Hdata).
  rewrite (request_envelope_error_branch _ _ Hfail).
  unfold read_property at 1.
  destruct Herr as [-> | [-> | ->]]; simpl; eauto.
Qed.

Lemma request_error_without_error_field_witness :
  ∃ msg,
    request (responding gateway_error) example_client "GET" "/domains"
      (json_options VUndefined)
    = Throw (ThrownCDN {| message := msg; code := VStr "NETWORK_ERROR";
                          status := 0; details := None |}).
Proof.
  refine (request_error_without_error_field
            (responding gateway_error) example_client "GET" "/domains"
            (json_options VUndefined) gateway_error
            (VObj [("message", VStr "Service Unavailable")]) _ _ _ _ _).
  - eexists. split; reflexivity.
  - discriminate.
  - reflexivity.
  - left. reflexivity.
  - right. left. reflexivity.
Defined.

(** ** Query parameters on any URL *)

(** X6.  Whatever query and fragment the parsed URL already has, the
    loop over the query record leaves its base and fragment alone, puts
    the entries whose value is not [undefined] after the parameters
    already there, in order, and rewrites the query as the serialization
    of the whole list when it appended something, not at all
    otherwise. *)
Theorem add_query_parameters_appends url entries :
  url_base (add_query_parameters url (Some entries)) = url_base url
  ∧ url_fragment (add_query_parameters url (Some entries)) = url_fragment url
  ∧ url_searchParams (add_query_parameters url (Some entries))
    = (url_searchParams url ++ defined_entries entries)%list
  ∧ url_query (add_query_parameters url (Some entries))
    = match defined_entries entries with
      | [] => url_query url
      | _ => Some (urlencoded_serialize
                     (url_searchParams url ++ defined_entries entries)%list)
      end.
Proof.
  rewrite add_query_parameters_entries.
  destruct (defined_entries entries) as [| p l] eqn:Hkept.
  - simpl. by rewrite app_nil_r.
  - by rewrite searchParams_append_all.
Qed.

(** ** The verbs without a body *)

(** The URL of a call, for a base URL and path that make a plain URL. *)
Lemma request_call_plain_url this method path options :
  fc_url (request_call this method
            (add_query_parameters (plain_URL (baseUrl this +:+ path)) (params options))
            options)
  = spec_url (baseUrl this) path (params options).
Proof.
  unfold spec_url. simpl fc_url.
  destruct (params options) as [entries |].
  - change (default [] (Some entries)) with entries.
    rewrite add_query_parameters_entries.
    destruct (defined_entries entries) as [| p l] eqn:Hkept.
    + cbn [foldl]. rewrite URL_toString_plain. by rewrite append_empty_r.
    + rewrite searchParams_append_all by done.
      unfold URL_toString, plain_URL.
      cbn [url_base url_query url_fragment url_searchParams app].
      by rewrite append_empty_r, append_assoc.
  - unfold add_query_parameters.
    rewrite URL_toString_plain. by rewrite append_empty_r.
Qed.

(** The one [fetch] call behind [get], [delete] and [download]. *)
Lemma bodyless_request pf this method path ps rt :
  new_URL pf (baseUrl this +:+ path) = Some (plain_URL (baseUrl this +:+ path)) →
  request pf this method path
    {| body := VUndefined; params := ps; responseType := rt |}
  = match
      request_try pf
        {| fc_url := spec_url (baseUrl this) path ps;
           fc_method := method;
           fc_headers := customHeaders this ∪ {[ "X-API-Key" := apiKey this ]};
           fc_body := None |}
        {| body := VUndefined; params := ps; responseType := rt |}
    with
    | Return promise => promise
    | Throw error => request_catch error
    end.
Proof.
  intros Hurl. unfold request. rewrite Hurl.
  set (options := {| body := VUndefined; params := ps; responseType := rt |}).
  assert (Hcall :
    request_call this method
      (add_query_parameters (plain_URL (baseUrl this +:+ path)) (params options))
      options
    = {| fc_url := spec_url (baseUrl this) path ps;
         fc_method := method;
         fc_headers := customHeaders this ∪ {[ "X-API-Key" := apiKey this ]};
         fc_body := None |}).
  { unfold request_call. f_equal.
    exact (request_call_plain_url this method path options). }
  by rewrite Hcall.
Qed.

(** X7.  [get], [delete] and [download] issue one [fetch] call, with the
    method [GET], [DELETE] and [GET], the URL made of base URL, path and
    the defined query entries (none for [download]), the additional
    headers over the credential entry and nothing else, and no body. *)
Theorem bodyless_verbs_call pf this path ps :
  new_URL pf (baseUrl this +:+ path) = Some (plain_URL (baseUrl this +:+ path)) →
  HttpClient.get pf this path ps
  = match
      request_try pf
        {| fc_url := spec_url (baseUrl this) path ps;
           fc_method := "GET";
           fc_headers := customHeaders this ∪ {[ "X-API-Key" := apiKey this ]};
           fc_body := None |}
        {| body := VUndefined; params := ps; responseType := None |}
    with
    | Return promise => promise
    | Throw error => request_catch error
    end
  ∧ HttpClient.delete pf this path ps
    = match
        request_try pf
          {| fc_url := spec_url (baseUrl this) path ps;
             fc_method := "DELETE";
             fc_headers := customHeaders this ∪ {[ "X-API-Key" := apiKey this ]};
             fc_body := None |}
          {| body := VUndefined; params := ps; responseType := None |}
      with
      | Return promise => promise
      | Throw error => request_catch error
      end
  ∧ HttpClient.download pf this path
    = match
        request_try pf
          {| fc_url := baseUrl this +:+ path;
             fc_method := "GET";
             fc_headers := customHeaders this ∪ {[ "X-API-Key" := apiKey this ]};
             fc_body := None |}
          {| body := VUndefined; params := None; responseType := Some blob |}
      with
      | Return promise => promise
      | Throw error => request_catch error
      end.
Proof.
  intros Hurl. split; [| split].
  - by apply bodyless_request.
  - by apply bodyless_request.
  - unfold download. rewrite (bodyless_request _ _ _ _ _ _ Hurl).
    unfold spec_url. cbn [default from_option defined_entries omap].
    by rewrite append_empty_r.
Qed.

Lemma bodyless_verbs_call_witness :
  HttpClient.delete (responding domain_list) example_client "/domains"
    (Some [("id", QString "dom_1")])
  = match
      request_try (responding domain_list)
        {| fc_url := "https://api.example/v1/domains?id=dom_1";
           fc_method := "DELETE";
           fc_headers := {[ "X-API-Key" := "secret" ]};
           fc_body := None |}
        {| body := VUndefined; params := Some [("id", QString "dom_1")];
           responseType := None |}
    with
    | Return promise => promise
    | Throw error => request_catch error
    end.
Proof.
  refine (eq_trans
            (proj1 (proj2 (bodyless_verbs_call
                             (responding domain_list) example_client "/domains"
                             (Some [("id", QString "dom_1")]) _))) _).
  - reflexivity.
  - reflexivity.
Defined.

(** ** The resource namespaces *)

(** A value with one readable property has them all readable. *)
Lemma get_some_any v k w k' :
  JS.get v k = Some w → ∃ w', JS.get v k' = Some w'.
Proof. destruct v; simpl; try done; eauto. Qed.

(** What [get], [post], [put], [patch] and [delete] resolve to is a
    document with a readable [success]. *)
Lemma json_request_returns pf this method path b ps v :
  request pf this method path {| body := b; params := ps; responseType := None |}
  = Return v →
  ∃ env s, v = Json env ∧ JS.get env "success" = Some s ∧ truthy s = true.
Proof.
  unfold request.
  destruct (new_URL pf (baseUrl this +:+ path)) as [url0 |]; [| done].
  intros H. apply request_try_returns in H; [| done].
  destruct H as (r & data & s & _ & _ & _ & -> & Hs & Ht). eauto.
Qed.

Lemma unwraps_engine_call (call : completion payload) :
  (∀ v, call = Return v → ∃ env s, v = Json env ∧ JS.get env "success" = Some s
                                   ∧ truthy s = true) →
  unwraps (response <- call ;; response_property response "data") call.
Proof.
  intros Hcall. destruct call as [v | t]; simpl.
  - destruct (Hcall v eq_refl) as (env & s & -> & Hs & _).
    destruct (get_some_any _ _ _ "data" Hs) as [w Hw].
    simpl. unfold read_property. rewrite Hw.
    split; [done |]. intros ? [= <-]. eauto.
  - split; [by intros ? [= <-] | done].
Qed.

(** X8.  The methods that answer with [response.data] add no failure of
    their own: each throws only what its engine call throws, and
    resolves only to the [data] property of the envelope the engine
    resolved to ([undefined] when the envelope has none). *)
Theorem namespace_methods_unwrap pf client :
  (∀ id, unwraps (DomainsApi.get pf client id)
           (HttpClient.get pf client "/domains" (Some [("id", QString id)])))
  ∧ (∀ params, unwraps (DomainsApi.create pf client params)
                 (HttpClient.post pf client "/domains" params None))
  ∧ (∀ id, unwraps (DomainsApi.delete pf client id)
             (HttpClient.delete pf client "/domains" (Some [("id", QString id)])))
  ∧ (∀ params, unwraps (DomainsApi.verify pf client params)
                 (HttpClient.post pf client "/domains/verify" params None))
  ∧ (∀ id, unwraps (ZonesApi.get pf client id)
             (HttpClient.get pf client ("/zones/" +:+ id) None))
  ∧ (∀ id params, unwraps (ZonesApi.update pf client id params)
                    (HttpClient.put pf client ("/zones/" +:+ id) params None))
  ∧ (∀ fqdn params, unwraps (ZonesApi.updateByFqdn pf client fqdn params)
                      (HttpClient.patch pf client "/zones" params
                         (Some [("fqdn", QString fqdn)])))
  ∧ (∀ id, unwraps (ZonesApi.delete pf client id)
             (HttpClient.delete pf client ("/zones/" +:+ id) None))
  ∧ (∀ certificateId,
       unwraps (getStatus pf client certificateId)
         (HttpClient.get pf client "/certificates/acme"
            (Some [("certificateId", QString certificateId)]))).
Proof.
  split; [| split; [| split; [| split; [| split; [| split; [| split; [| split]]]]]]];
    intros;
    lazymatch goal with
    | |- unwraps _ ?call => apply (unwraps_engine_call call)
    end;
    intros v Hv; by eapply json_request_returns.
Qed.

Lemma namespace_methods_unwrap_witness :
  HttpClient.get (responding domain_exists) example_client "/domains"
    (Some [("id", QString "dom_1")])
  = Throw (ThrownCDN {| message := "Domain already registered";
                        code := VStr "DOMAIN_EXISTS";
                        status := 409;
                        details := None |})
  ∧ ∃ env,
      HttpClient.get (responding unpaged_domains) example_client "/domains"
        (Some [("id", QString "dom_1")]) = Return (Json env)
      ∧ JS.get env "data" = Some two_domains.
Proof.
  split.
  - refine (proj1 (proj1 (namespace_methods_unwrap
                            (responding domain_exists) example_client) "dom_1")
              _ _).
    reflexivity.
  - refine (proj2 (proj1 (namespace_methods_unwrap
                            (responding unpaged_domains) example_client) "dom_1")
              _ _).
    reflexivity.
Defined.

(** X9.  A paginated [list] hands on the pagination the server sent,
    whatever it is, and reads no length then; when the envelope has no
    [meta] (or a [null] one) and [data] is an array of [n] elements, the
    pagination is made up as one page: total [n], page 1, [n] per page,
    1 page in all. *)
Theorem domains_list_meta pf client params env data meta :
  HttpClient.get pf client "/domains" (Some (DomainsApi.list_query params))
  = Return (Json env) →
  JS.get env "data" = Some data →
  JS.get env "meta" = Some meta →
  (nullish meta = false →
     DomainsApi.list pf client params
     = Return (VObj [("data", data); ("meta", meta)]))
  ∧ (nullish meta = true →
     ∀ elems, data = VArr elems →
       DomainsApi.list pf client params
       = Return (VObj [("data", data);
                       ("meta",
                        VObj [("total", VNum (Z.of_nat (length elems)));
                              ("page", VNum 1);
                              ("perPage", VNum (Z.of_nat (length elems)));
                              ("totalPages", VNum 1)])])).
Proof.
  intros Hget Hdata Hmeta. unfold DomainsApi.list. rewrite Hget.
  cbn [bind]. unfold data_and_meta, response_property, read_property.
  rewrite Hdata, Hmeta. cbn [bind].
  split.
  - intros ->. reflexivity.
  - intros -> elems ->. reflexivity.
Qed.

Lemma domains_list_meta_witness :
  DomainsApi.list (responding paged_domains) example_client None
  = Return (VObj [("data", two_domains);
                  ("meta", VObj [("page", VNum 2); ("perPage", VNum 2);
                                 ("total", VNum 5); ("totalPages", VNum 3)])])
  ∧ DomainsApi.list (responding unpaged_domains) example_client None
    = Return (VObj [("data", two_domains);
                    ("meta", VObj [("total", VNum 2); ("page", VNum 1);
                                   ("perPage", VNum 2); ("totalPages", VNum 1)])]).
Proof.
  split.
  - refine (proj1 (domains_list_meta
                     (responding paged_domains) example_client None
                     (VObj [("success", VBool true); ("data", two_domains);
                            ("meta", VObj [("page", VNum 2); ("perPage", VNum 2);
                                           ("total", VNum 5); ("totalPages", VNum 3)])])
                     two_domains
                     (VObj [("page", VNum 2); ("perPage", VNum 2);
                            ("total", VNum 5); ("totalPages", VNum 3)])
                     _ _ _) _).
    + reflexivity.
    + reflexivity.
    + reflexivity.
    + reflexivity.
  - refine (proj2 (domains_list_meta
                     (responding unpaged_domains) example_client None
                     (VObj [("success", VBool true); ("data", two_domains)])
                     two_domains VUndefined _ _ _) _
              [VObj [("id", VStr "dom_1")]; VObj [("id", VStr "dom_2")]] _).
    + reflexivity.
    + reflexivity.
    + reflexivity.
    + reflexivity.
    + reflexivity.
Defined.

(** X10.  When the envelope the engine resolved to has neither [meta]
    nor [data] (each missing or [null]), a paginated [list] fails on
    [response.data.length]: it throws a [TypeError] of its own, which is
    no [DataHordersCDNError]. *)
Theorem domains_list_without_data pf client params env data meta :
  HttpClient.get pf client "/domains" (Some (DomainsApi.list_query params))
  = Return (Json env) →
  JS.get env "data" = Some data →
  JS.get env "meta" = Some meta →
  nullish meta = true →
  nullish data = true →
  ∃ msg, DomainsApi.list pf client params = Throw (ThrownError "TypeError" msg).
Proof.
  intros Hget Hdata Hmeta Hm Hd. unfold DomainsApi.list. rewrite Hget.
  cbn [bind]. unfold data_and_meta, response_property, read_property.
  rewrite Hdata, Hmeta. cbn [bind]. rewrite Hm.
  destruct data; try done; simpl; eauto.
Qed.

Lemma domains_list_without_data_witness :
  ∃ msg,
    DomainsApi.list (responding bare_success) example_client None
    = Throw (ThrownError "TypeError" msg).
Proof.
  refine (domains_list_without_data
            (responding bare_success) example_client None
            (VObj [("success", VBool true)]) VUndefined VUndefined _ _ _ _ _).
  - reflexivity.
  - reflexivity.
  - reflexivity.
  - reflexivity.
  - reflexivity.
Defined.

(** The query record of [list] keeps the entries the words describe. *)
Lemma list_query_entries params :
  defined_entries (DomainsApi.list_query params) = domain_list_entries params.
Proof.
  destruct params as [[p n v] |]; [| reflexivity].
  unfold DomainsApi.list_query, domain_list_entries. simpl.
  destruct p, n, v; reflexivity.
Qed.

(** X11.  [DomainsApi.list] asks for [/domains] with [page], [perPage]
    and [verified] as the only query parameters, in this order, each
    only when the caller gave it; [verified] travels as the text [true]
    or [false], so that [verified: false] is sent and not dropped; with
    no filters at all the URL has no query. *)
Theorem domains_list_call pf client params :
  new_URL pf (baseUrl client +:+ "/domains")
  = Some (plain_URL (baseUrl client +:+ "/domains")) →
  DomainsApi.list pf client params
  = (response <-
       match
         request_try pf
           {| fc_url :=
                baseUrl client +:+ "/domains"
                  +:+ match domain_list_entries params with
                      | [] => EmptyString
                      | l => "?" +:+ urlencoded_serialize l
                      end;
              fc_method := "GET";
              fc_headers := customHeaders client ∪ {[ "X-API-Key" := apiKey client ]};
              fc_body := None |}
           {| body := VUndefined;
              params := Some (DomainsApi.list_query params);
              responseType := None |}
       with
       | Return promise => promise
       | Throw error => request_catch error
       end ;;
     data_and_meta response).
Proof.
  intros Hurl. unfold DomainsApi.list, HttpClient.get.
  rewrite (bodyless_request _ _ _ _ _ _ Hurl).
  unfold spec_url. change (default [] (Some ?l)) with l.
  by rewrite list_query_entries.
Qed.

Lemma domains_list_call_witness :
  DomainsApi.list (responding unpaged_domains) example_client unverified_only
  = (response <-
       match
         request_try (responding unpaged_domains)
           {| fc_url := "https://api.example/v1/domains?perPage=50&verified=false";
              fc_method := "GET";
              fc_headers := {[ "X-API-Key" := "secret" ]};
              fc_body := None |}
           {| body := VUndefined;
              params := Some (DomainsApi.list_query unverified_only);
              responseType := None |}
       with
       | Return promise => promise
       | Throw error => request_catch error
       end ;;
     data_and_meta response).
Proof.
  refine (eq_trans
            (domains_list_call (responding unpaged_domains) example_client
               unverified_only _) _).
  - reflexivity.
  - reflexivity.
Defined.

(** X12.  [UpstreamServersApi.list] hands on what the engine resolved
    to, and the engine resolves only to a document with a truthy
    [success]: the result is never an array.  A response whose body is a
    bare JSON array makes the call throw [NETWORK_ERROR] with status 0,
    whatever the HTTP status. *)
Theorem upstream_list_never_array pf client zoneId :
  (∀ v, UpstreamServersApi.list pf client zoneId = Return v →
     ∃ env s, v = Json env ∧ JS.get env "success" = Some s ∧ truthy s = true
              ∧ ∀ elems, env ≠ VArr elems)
  ∧ (∀ r elems,
       answers pf client "GET" ("/zones/" +:+ zoneId +:+ "/upstream/servers")
         {| body := VUndefined; params := None; responseType := None |} r →
       resp_json r = Return (VArr elems) →
       ∃ msg,
         UpstreamServersApi.list pf client zoneId
         = Throw (ThrownCDN {| message := msg; code := VStr "NETWORK_ERROR";
                               status := 0; details := None |})).
Proof.
  split.
  - intros v Hv. apply json_request_returns in Hv.
    destruct Hv as (env & s & -> & Hs & Ht). exists env, s.
    repeat split; try done. intros elems ->. simpl in Hs. by injection Hs as <-.
  - intros r elems Hans Hdata. unfold UpstreamServersApi.list, HttpClient.get.
    rewrite (request_json_path _ _ _ _ _ _ _ Hans ltac:(done) Hdata).
    rewrite request_envelope_error_branch; [simpl; eauto |].
    right. by exists VUndefined.
Qed.

Lemma upstream_list_never_array_witness :
  ∃ msg,
    UpstreamServersApi.list (responding bare_array) example_client "zone_1"
    = Throw (ThrownCDN {| message := msg; code := VStr "NETWORK_ERROR";
                          status := 0; details := None |}).
Proof.
  refine (proj2 (upstream_list_never_array
                   (responding bare_array) example_client "zone_1")
            bare_array [VObj [("id", VStr "srv_1")]] _ _).
  - eexists. split; reflexivity.
  - reflexivity.
Defined.

(** ** The constructors *)

Lemma strip_trailing_slash_app s : strip_trailing_slash (s +:+ "/") = s.
Proof.
  induction s as [| c s IH]; [reflexivity |].
  change (String c s +:+ "/") with (String c (s +:+ "/")).
  destruct s as [| c' s']; [reflexivity |].
  change (String c' s' +:+ "/") with (String c' (s' +:+ "/")) in *.
  change (strip_trailing_slash (String c (String c' (s' +:+ "/"))))
    with (String c (strip_trailing_slash (String c' (s' +:+ "/")))).
  by rewrite IH.
Qed.

Lemma strip_trailing_slash_cases s :
  strip_trailing_slash s = s ∨ s = strip_trailing_slash s +:+ "/".
Proof.
  induction s as [| c s IH]; [by left |].
  destruct s as [| c' s'].
  - simpl. destruct (Ascii.N_of_ascii c =? 47)%N eqn:Hc; [| by left].
    right. apply N.eqb_eq in Hc.
    rewrite <- (Ascii.ascii_N_embedding c), Hc. reflexivity.
  - change (strip_trailing_slash (String c (String c' s')))
      with (String c (strip_trailing_slash (String c' s'))).
    destruct IH as [-> | IH]; [by left |].
    right. rewrite IH at 1. reflexivity.
Qed.

(** X13.  The client's base URL is the configured one with one slash at
    its very end dropped, if there is one, and nothing else changed (of
    two slashes one stays); without a configured base URL, and for the
    facade built from a bare key, it is the default one, with the default
    timeout and no additional headers. *)
Theorem constructor_baseUrl config :
  (∀ s, config_baseUrl config = Some (s +:+ "/") →
     baseUrl (HttpClient.constructor config) = s)
  ∧ (∀ s, config_baseUrl config = Some s →
       baseUrl (HttpClient.constructor config) = s
       ∨ s = baseUrl (HttpClient.constructor config) +:+ "/")
  ∧ (config_baseUrl config = None →
       baseUrl (HttpClient.constructor config) = DEFAULT_BASE_URL)
  ∧ DataHordersCDN.constructor (DataHordersCDN.Config config)
    = HttpClient.constructor config
  ∧ (∀ key, DataHordersCDN.constructor (DataHordersCDN.ApiKey key)
            = {| baseUrl := DEFAULT_BASE_URL; apiKey := key;
                 timeout := DEFAULT_TIMEOUT; customHeaders := ∅ |}).
Proof.
  unfold HttpClient.constructor, DataHordersCDN.constructor. cbn [baseUrl].
  split; [| split; [| split; [| split]]].
  - intros s ->. apply strip_trailing_slash_app.
  - intros s ->. apply strip_trailing_slash_cases.
  - intros ->. reflexivity.
  - reflexivity.
  - intros key. reflexivity.
Qed.

Lemma constructor_baseUrl_witness :
  baseUrl (HttpClient.constructor slashed_config) = "https://api.example/v1/"
  ∧ baseUrl (HttpClient.constructor
               {| config_apiKey := "secret"; config_baseUrl := None;
                  config_timeout := None; config_headers := None |})
    = DEFAULT_BASE_URL.
Proof.
  split.
  - refine (proj1 (constructor_baseUrl slashed_config)
              "https://api.example/v1/" _).
    reflexivity.
  - refine (proj1 (proj2 (proj2 (constructor_baseUrl
              {| config_apiKey := "secret"; config_baseUrl := None;
                 config_timeout := None; config_headers := None |}))) _).
    reflexivity.
Defined.

(** ** More on polling *)

Section polling.

Variable client : HttpClient.
Variable certificateId : string.
Variable options : option WaitOptions.
Variable startTime : Z.

Local Abbreviation pollInterval := (pollInterval_of options).
Local Abbreviation timeout := (timeout_of options).
Local Abbreviation waiting := (waiting_round client certificateId options startTime).
Local Abbreviation events := (pending_events certificateId options).
Local Abbreviation run := (poll client certificateId pollInterval timeout startTime).

Lemma poll_waiting_round r rest :
  waiting r →
  run (r :: rest)
  = (StatusCheck certificateId :: Delay pollInterval :: (run rest).1, (run rest).2).
Proof.
  intros (Hnow & status & s & Hstatus & Hs & Hwait).
  cbn [poll]. apply Z.ltb_lt in Hnow. rewrite Hnow, Hstatus.
  unfold read_property. rewrite Hs.
  unfold waiting_status in Hwait.
  apply andb_prop in Hwait as [Hwait Herror].
  apply andb_prop in Hwait as [Hactive Hfailed].
  apply negb_true_iff in Hactive, Hfailed, Herror.
  rewrite Hactive, Hfailed, Herror. simpl.
  by destruct (run rest).
Qed.

Lemma poll_waiting_prefix pend rest :
  Forall waiting pend →
  run (pend ++ rest)
  = ((events (length pend) ++ (run rest).1)%list, (run rest).2).
Proof.
  induction 1 as [| r pend Hr _ IH].
  - simpl. by destruct (run rest).
  - change ((r :: pend) ++ rest)%list with (r :: (pend ++ rest))%list.
    rewrite (poll_waiting_round _ _ Hr), IH. reflexivity.
Qed.


(** X15.  A status check that throws ends the polling at once: the error
    of the check is what [waitForActive] throws, unchanged, with no
    delay and no further check after it. *)
Theorem waitForActive_check_fails pend r rest t :
  Forall waiting pend →
  now r - startTime < timeout →
  getStatus (network r) client certificateId = Throw t →
  waitForActive client certificateId options startTime (pend ++ r :: rest)
  = ((events (length pend) ++ [StatusCheck certificateId])%list,
     Some (Throw t)).
Proof.
  intros Hpend Hnow Hstatus. unfold waitForActive.
  rewrite (poll_waiting_prefix _ _ Hpend).
  cbn [poll]. apply Z.ltb_lt in Hnow. by rewrite Hnow, Hstatus.
Qed.

(** X16.  A status check that resolves to [undefined] or [null], as for
    a success envelope without [data], ends the polling with the
    [TypeError] of reading [status]: an error that is no
    [DataHordersCDNError]. *)
Theorem waitForActive_status_missing pend r rest status :
  Forall waiting pend →
  now r - startTime < timeout →
  getStatus (network r) client certificateId = Return status →
  nullish status = true →
  ∃ msg,
    waitForActive client certificateId options startTime (pend ++ r :: rest)
    = ((events (length pend) ++ [StatusCheck certificateId])%list,
       Some (Throw (ThrownError "TypeError" msg))).
Proof.
  intros Hpend Hnow Hstatus Hnull. unfold waitForActive.
  rewrite (poll_waiting_prefix _ _ Hpend).
  cbn [poll]. apply Z.ltb_lt in Hnow. rewrite Hnow, Hstatus.
  destruct status; try done; simpl; eauto.
Qed.


(** X18.  [waitForActive] resolves only to a status document whose
    [status] is the string [active]. *)
Theorem waitForActive_returns_active rounds v :
  (waitForActive client certificateId options startTime rounds).2
  = Some (Return v) →
  JS.get v "status" = Some (VStr "active").
Proof.
  unfold waitForActive.
  induction rounds as [| r rest IH]; [done |].
  cbn [poll].
  destruct (now r - startTime <? timeout); [| done].
  destruct (getStatus (network r) client certificateId) as [status | t]; [| done].
  unfold read_property.
  destruct (JS.get status "status") as [s |] eqn:Hs; [| done].
  destruct (strict_eq_string s "active") eqn:Hactive.
  - simpl. intros [= <-]. rewrite Hs. f_equal.
    destruct s; try done. simpl in Hactive.
    by apply String.eqb_eq in Hactive as ->.
  - destruct (strict_eq_string s "failed" || strict_eq_string s "error").
    + unfold read_property.
      destruct (JS.get status "message") as [m |]; simpl; [| done].
      match goal with
      | |- context [throw_new ?m ?c ?s ?d] =>
          destruct (@throw_new_throws value m c s d) as [t ->]
      end. done.
    + destruct (run rest) as [ev out]. exact IH.
Qed.

End polling.


Lemma waitForActive_check_fails_witness :
  waitForActive example_client "cert_1" every_second 0
    [reporting 0 "pending"; answering 1002 unauthorized; reporting 2005 "active"]
  = ([StatusCheck "cert_1"; Delay 1000; StatusCheck "cert_1"],
     Some (Throw (ThrownCDN {| message := "API key required";
                               code := VStr "AUTH_REQUIRED";
                               status := 401;
                               details := None |}))).
Proof.
  refine (waitForActive_check_fails example_client "cert_1" every_second 0
            [reporting 0 "pending"] (answering 1002 unauthorized)
            [reporting 2005 "active"] _ _ _ _).
  - constructor; [| constructor].
    split; [reflexivity |].
    exists (certificate_status "pending"), (VStr "pending").
    repeat split; reflexivity.
  - reflexivity.
  - reflexivity.
Defined.

Lemma waitForActive_status_missing_witness :
  ∃ msg,
    waitForActive example_client "cert_1" every_second 0
      [answering 0 bare_success; reporting 1002 "active"]
    = ([StatusCheck "cert_1"],
       Some (Throw (ThrownError "TypeError" msg))).
Proof.
  refine (waitForActive_status_missing example_client "cert_1" every_second 0
            [] (answering 0 bare_success) [reporting 1002 "active"]
            VUndefined _ _ _ _).
  - constructor.
  - reflexivity.
  - reflexivity.
  - reflexivity.
Defined.

Lemma waitForActive_returns_active_witness :
  JS.get (certificate_status "active") "status" = Some (VStr "active").
Proof.
  refine (waitForActive_returns_active example_client "cert_1" every_second 0
            [reporting 0 "pending"; reporting 1002 "active"]
            (certificate_status "active") _).
  reflexivity.
Defined.

(** ** The verbs with a body, and the download *)

Lemma body_request pf this method path b ps :
  new_URL pf (baseUrl this +:+ path) = Some (plain_URL (baseUrl this +:+ path)) →
  truthy b = true →
  request pf this method path {| body := b; params := ps; responseType := None |}
  = match
      request_try pf
        {| fc_url := spec_url (baseUrl this) path ps;
           fc_method := method;
           fc_headers :=
             <[ "Content-Type" := "application/json" ]>
               (customHeaders this ∪ {[ "X-API-Key" := apiKey this ]});
           fc_body := JSON_stringify b |}
        {| body := b; params := ps; responseType := None |}
    with
    | Return promise => promise
    | Throw error => request_catch error
    end.
Proof.
  intros Hurl Hbody. unfold request. rewrite Hurl.
  set (options := {| body := b; params := ps; responseType := None |}).
  assert (Hcall :
    request_call this method
      (add_query_parameters (plain_URL (baseUrl this +:+ path)) (params options))
      options
    = {| fc_url := spec_url (baseUrl this) path ps;
         fc_method := method;
         fc_headers :=
           <[ "Content-Type" := "application/json" ]>
             (customHeaders this ∪ {[ "X-API-Key" := apiKey this ]});
         fc_body := JSON_stringify b |}).
  { unfold request_call, request_headers. subst options. cbn [body].
    rewrite Hbody. f_equal.
    exact (request_call_plain_url this method path
             {| body := b; params := ps; responseType := None |}). }
  by rewrite Hcall.
Qed.

(** X19.  [post], [put] and [patch] with a truthy body issue one [fetch]
    call with their own method, the URL made of base URL, path and the
    defined query entries, the JSON text of the body as body, and the
    additional headers over the credential entry with [Content-Type] set
    to [application/json] on top. *)
Theorem body_verbs_call pf this path b ps :
  new_URL pf (baseUrl this +:+ path) = Some (plain_URL (baseUrl this +:+ path)) →
  truthy b = true →
  post pf this path b ps
  = match
      request_try pf
        {| fc_url := spec_url (baseUrl this) path ps;
           fc_method := "POST";
           fc_headers :=
             <[ "Content-Type" := "application/json" ]>
               (customHeaders this ∪ {[ "X-API-Key" := apiKey this ]});
           fc_body := JSON_stringify b |}
        {| body := b; params := ps; responseType := None |}
    with
    | Return promise => promise
    | Throw error => request_catch error
    end
  ∧ put pf this path b ps
    = match
        request_try pf
          {| fc_url := spec_url (baseUrl this) path ps;
             fc_method := "PUT";
             fc_headers :=
               <[ "Content-Type" := "application/json" ]>
                 (customHeaders this ∪ {[ "X-API-Key" := apiKey this ]});
             fc_body := JSON_stringify b |}
          {| body := b; params := ps; responseType := None |}
      with
      | Return promise => promise
      | Throw error => request_catch error
      end
  ∧ patch pf this path b ps
    = match
        request_try pf
          {| fc_url := spec_url (baseUrl this) path ps;
             fc_method := "PATCH";
             fc_headers :=
               <[ "Content-Type" := "application/json" ]>
                 (customHeaders this ∪ {[ "X-API-Key" := apiKey this ]});
             fc_body := JSON_stringify b |}
          {| body := b; params := ps; responseType := None |}
      with
      | Return promise => promise
      | Throw error => request_catch error
      end.
Proof.
  intros Hurl Hbody. repeat split; by apply body_request.
Qed.

Lemma body_verbs_call_witness :
  patch (responding domain_list) example_client "/zones"
    (VObj [("name", VStr "app")]) (Some [("fqdn", QString "app.example.com")])
  = match
      request_try (responding domain_list)
        {| fc_url := "https://api.example/v1/zones?fqdn=app.example.com";
           fc_method := "PATCH";
           fc_headers :=
             <[ "Content-Type" := "application/json" ]>
               {[ "X-API-Key" := "secret" ]};
           fc_body := Some ("{" +:+ dquote +:+ "name" +:+ dquote +:+ ":"
                              +:+ dquote +:+ "app" +:+ dquote +:+ "}") |}
        {| body := VObj [("name", VStr "app")];
           params := Some [("fqdn", QString "app.example.com")];
           responseType := None |}
    with
    | Return promise => promise
    | Throw error => request_catch error
    end.
Proof.
  refine (eq_trans
            (proj2 (proj2 (body_verbs_call
                             (responding domain_list) example_client "/zones"
                             (VObj [("name", VStr "app")])
                             (Some [("fqdn", QString "app.example.com")]) _ _))) _).
  - reflexivity.
  - reflexivity.
  - reflexivity.
Defined.

(** X20.  [CertificatesApi.download] resolves only to a blob, and only
    to the blob of a response with a status in 200-299; it never
    resolves to a parsed document. *)
Theorem download_returns_blob pf client id v :
  CertificatesApi.download pf client id = Return v →
  ∃ r bytes,
    answers pf client "GET" ("/certificates/" +:+ id +:+ "/download")
      download_options r
    ∧ ok r = true
    ∧ resp_blob r = Return bytes
    ∧ v = Blob bytes.
Proof.
  unfold CertificatesApi.download, download, request, request_try.
  destruct (new_URL pf _) as [url0 |] eqn:Hurl; [| done].
  destruct (fetch pf _) as [r | t] eqn:Hfetch; cbn [bind];
    [| intros H; by apply request_catch_never_returns in H].
  assert (Hans : answers pf client "GET" ("/certificates/" +:+ id +:+ "/download")
                   download_options r) by (exists url0; done).
  cbn [responseType]. destruct (ok r) eqn:Hok; cbn [negb].
  - destruct (resp_blob r) as [bytes | t] eqn:Hblob; cbn [bind]; [| done].
    intros [= <-]. by exists r, bytes.
  - destruct (resp_text r) as [text | t]; cbn [bind];
      [| intros H; by apply request_catch_never_returns in H].
    destruct (or_else_text text) as [m ->]. rewrite throw_new_string.
    intros H. by apply request_catch_never_returns in H.
Qed.

Lemma download_returns_blob_witness :
  ∃ r bytes,
    answers (responding archive) example_client "GET"
      ("/certificates/" +:+ "cert_1" +:+ "/download") download_options r
    ∧ ok r = true
    ∧ resp_blob r = Return bytes
    ∧ Blob [Byte.x50; Byte.x4b; Byte.x03; Byte.x04] = Blob bytes.
Proof.
  refine (download_returns_blob (responding archive) example_client "cert_1"
            (Blob [Byte.x50; Byte.x4b; Byte.x03; Byte.x04]) _).
  reflexivity.
Defined.
